(** * Lumbar-Spine-Classification: the prediction adjustment pipeline

    A shallow embedding of [src/prediction/prediction_pipeline.py]
    (class [OptimizedPredictionPipeline]) and the properties its
    specification states about it.

    Numbers.  Every value a tensor can hold is a rational, so tensor
    entries and the weight tables live in [Q]; products, sums and quotients
    are the exact ones: neither the rounding of float32 nor its overflow to
    infinity is modelled, so what is proved of large inputs is stated for
    entries between 0 and 1, and bounds that rounding could cross are
    stated with a margin.  The entropy of [get_prediction_confidence] takes
    logarithms, so confidences live in [R], reached through [Q2R].

    Tensors.  A 2-D tensor is the list of its rows; a tensor without rows
    is the empty list whatever its number of columns, so what depends on
    the number of columns is stated for tensors of at least one row.

    Failures.  Python exceptions are the left summand of [result].

    Collaborators.  The classifier is a function; a dataloader is the list
    of the batches it yields, each with its image, condition and level
    entries; an image is an opaque value that [preprocess_input] carries
    through (its conversion to a float tensor on the device is not
    modelled).  What the classifier or the iteration of a dataloader may
    raise is outside the model. *)

From Stdlib Require Import List String Ascii Bool Arith ZArith Lia.
From Stdlib Require Import QArith Qabs Qminmax Qreals.
From Stdlib Require Import Reals Psatz.
Import ListNotations.

Local Open Scope string_scope.
Local Open Scope Q_scope.

(** ** Exceptions and the error monad *)

Inductive exn : Type :=
| KeyError (key : string)     (* d[k] with k absent from the dict d *)
| IndexError.                 (* l[i] or t[:, j] out of range, and a
                                 reduction over a dimension of size 0 *)

Definition result (A : Type) : Type := (exn + A)%type.

Definition raise {A : Type} (e : exn) : result A := inl e.
Definition ret {A : Type} (a : A) : result A := inr a.

Definition bind {A B : Type} (m : result A) (k : A -> result B) : result B :=
  match m with
  | inl e => inl e
  | inr a => k a
  end.

Notation "x <- m ;; k" := (bind m (fun x => k))
  (at level 61, m at next level, right associativity).

Definition raises {A : Type} (m : result A) : Prop := exists e, m = inl e.

(** [for x in xs: s = body(s, x)], stopping at the first exception. *)
Fixpoint for_each {A S : Type} (xs : list A) (body : S -> A -> result S) (s : S)
  : result S :=
  match xs with
  | [] => ret s
  | x :: xs' => s' <- body s x ;; for_each xs' body s'
  end.

(** The same function applied to every row of a tensor, first failure wins. *)
Fixpoint map_rows {A B : Type} (f : A -> result B) (rows : list A)
  : result (list B) :=
  match rows with
  | [] => ret []
  | r :: rows' => r' <- f r ;; rest <- map_rows f rows' ;; ret (r' :: rest)
  end.

(** ** Python dicts: insertion-ordered association lists *)

Definition dict (V : Type) : Type := list (string * V).

Fixpoint dict_find {V : Type} (d : dict V) (k : string) : option V :=
  match d with
  | [] => None
  | (k', v) :: d' => if String.eqb k' k then Some v else dict_find d' k
  end.

(** [d.get(k, default)] *)
Definition dict_get {V : Type} (d : dict V) (k : string) (default : V) : V :=
  match dict_find d k with
  | Some v => v
  | None => default
  end.

(** [d[k]] *)
Definition dict_getitem {V : Type} (d : dict V) (k : string) : result V :=
  match dict_find d k with
  | Some v => ret v
  | None => raise (KeyError k)
  end.

(** [list(d.keys())] *)
Definition dict_keys {V : Type} (d : dict V) : list string := map fst d.

(** [l[i]] for a Python list or the leading dimension of a tensor. *)
Definition list_getitem {A : Type} (l : list A) (i : nat) : result A :=
  match nth_error l i with
  | Some a => ret a
  | None => raise IndexError
  end.

(** [sub in s] on Python strings. *)
Fixpoint contains (sub s : string) : bool :=
  String.prefix sub s ||
  match s with
  | EmptyString => false
  | String _ s' => contains sub s'
  end.

(** ** Tensors *)

Abbreviation vector := (list Q) (only parsing).          (* a 1-D tensor *)
Abbreviation tensor2 := (list (list Q)) (only parsing).  (* a 2-D tensor, by rows *)

Definition Qgtb (x y : Q) : bool :=
  match x ?= y with
  | Gt => true
  | _ => false
  end.

(** [torch.zeros(n)] *)
Definition zeros (n : nat) : vector := repeat 0 n.

(** Apply [f] at index [i]; [None] when [i] is out of range. *)
Fixpoint update_at (l : vector) (i : nat) (f : Q -> Q) : option vector :=
  match l, i with
  | [], _ => None
  | x :: l', O => Some (f x :: l')
  | x :: l', S i' =>
      match update_at l' i' f with
      | Some r => Some (x :: r)
      | None => None
      end
  end.

(** [t[i] = v] on a 1-D tensor. *)
Definition setitem (t : vector) (i : nat) (v : Q) : result vector :=
  match update_at t i (fun _ => v) with
  | Some t' => ret t'
  | None => raise IndexError
  end.

(** [t[:, j] = f(t[:, j])], the in-place column updates [*=] and [+=]. *)
Definition column_update (t : tensor2) (j : nat) (f : Q -> Q) : result tensor2 :=
  map_rows (fun row => match update_at row j f with
                       | Some row' => ret row'
                       | None => raise IndexError
                       end) t.

Definition sum_vector (v : vector) : Q := fold_right Qplus 0 v.

(** The L1 norm of a row, [sum(|x|)]. *)
Definition l1_norm (v : vector) : Q := sum_vector (map Qabs v).

(** The default [eps] of [torch.nn.functional.normalize]. *)
Definition normalize_eps : Q := 1 # 1000000000000.

(** One row of [F.normalize(t, p=1, dim=1)]: [v / max(||v||_1, eps)]. *)
Definition normalize_row (v : vector) : vector :=
  let denom := Qmax (l1_norm v) normalize_eps in
  map (fun x => x / denom) v.

Definition F_normalize (t : tensor2) : tensor2 := map normalize_row t.

(** [torch.argmax] of a 1-D tensor: the index of the first maximal entry. *)
Fixpoint argmax_from (best : Q) (best_i i : nat) (l : vector) : nat :=
  match l with
  | [] => best_i
  | x :: l' =>
      if Qgtb x best then argmax_from x i (S i) l'
      else argmax_from best best_i (S i) l'
  end.

Definition argmax (v : vector) : result nat :=
  match v with
  | [] => raise IndexError
  | x :: l => ret (argmax_from x 0%nat 1%nat l)
  end.

(** ** The tables of [__init__] *)

Definition condition_weights : dict Q :=
  [ ("Spinal Canal Stenosis", 1.0);
    ("Left Neural Foraminal Narrowing", 0.95);
    ("Right Neural Foraminal Narrowing", 0.95);
    ("Left Subarticular Stenosis", 0.93);
    ("Right Subarticular Stenosis", 0.93) ].

Definition level_weights : dict Q :=
  [ ("L1_L2", 1.0);
    ("L2_L3", 0.98);
    ("L3_L4", 0.95);
    ("L4_L5", 0.90);
    ("L5_S1", 0.92) ].

Definition log_loss_thresholds : dict (dict Q) :=
  [ ("Spinal Canal Stenosis",
      [ ("L1_L2", 0.1067); ("L2_L3", 0.4514); ("L3_L4", 0.5757);
        ("L4_L5", 0.8928); ("L5_S1", 0.2164) ]);
    ("Neural Foraminal Narrowing",
      [ ("L1_L2", 0.2200); ("L2_L3", 0.4635); ("L3_L4", 0.9959);
        ("L4_L5", 1.1089); ("L5_S1", 1.0936) ]);
    ("Subarticular Stenosis",
      [ ("L1_L2", 0.2285); ("L2_L3", 0.5337); ("L3_L4", 0.9766);
        ("L4_L5", 1.1551); ("L5_S1", 0.7856) ]) ].

(** The two local maps of [preprocess_input]. *)
Definition condition_map : dict nat :=
  [ ("Spinal Canal Stenosis", 0%nat);
    ("Left Neural Foraminal Narrowing", 1%nat);
    ("Right Neural Foraminal Narrowing", 2%nat);
    ("Left Subarticular Stenosis", 3%nat);
    ("Right Subarticular Stenosis", 4%nat) ].

Definition level_map : dict nat :=
  [ ("L1_L2", 0%nat); ("L2_L3", 1%nat); ("L3_L4", 2%nat);
    ("L4_L5", 3%nat); ("L5_S1", 4%nat) ].

(** ** [apply_condition_level_adjustments] *)

Definition apply_condition_level_adjustments
  (predictions : tensor2) (condition level : string) : result tensor2 :=
  let condition_weight := dict_get condition_weights condition 0.95 in
  let level_weight := dict_get level_weights level 0.90 in
  let condition_key :=
    if contains "Neural Foraminal Narrowing" condition
    then "Neural Foraminal Narrowing"
    else if contains "Subarticular Stenosis" condition
    then "Subarticular Stenosis"
    else condition in
  by_level <- dict_getitem log_loss_thresholds condition_key ;;
  log_loss_threshold <- dict_getitem by_level level ;;
  let adjusted_predictions :=
    map (map (fun x => x * (condition_weight * level_weight))) predictions in
  adjusted_predictions <-
    (if Qgtb log_loss_threshold 0.8 then
       a <- column_update adjusted_predictions 2 (fun x => x * 0.9) ;;
       a <- column_update a 1 (fun x => x * 0.95) ;;
       column_update a 0 (fun x => x + 0.1)
     else ret adjusted_predictions) ;;
  ret (F_normalize adjusted_predictions).

(** ** [get_prediction_confidence] *)

(** The additive constant inside the logarithm, [1e-7]. *)
Definition log_eps : R := (1 / 10000000)%R.

(** [row.max()] *)
Definition max_row (v : list R) : result R :=
  match v with
  | [] => raise IndexError
  | x :: l => ret (fold_left Rmax l x)
  end.

(** [-(row * log(row + eps)).sum()] *)
Definition entropy_with (eps : R) (v : list R) : R :=
  (- fold_right Rplus 0 (map (fun p => p * ln (p + eps)) v))%R.

(** One row of the confidence, with the constant of the logarithm as a
    parameter; the code fixes it to [log_eps]. *)
Definition row_confidence_with (eps : R) (v : list R) : result R :=
  max_prob <- max_row v ;;
  let entropy := entropy_with eps v in
  ret (max_prob * (1 - entropy / ln 3))%R.

Definition get_prediction_confidence (predictions : tensor2) : result (list R) :=
  map_rows (fun row => row_confidence_with log_eps (map Q2R row)) predictions.

(** ** Results, [preprocess_input], [predict] and [batch_predict] *)

(** The dict returned by [predict] and appended by [batch_predict]; it has
    these four keys and no other. *)
Record PredictionResult : Type := mkPredictionResult {
  probabilities : tensor2;
  confidence : list R;
  severity_prediction : list nat;
  original_probabilities : tensor2
}.

(** What the classifier is given as condition and level: one one-hot
    vector ([predict]) or one per sample of a batch ([batch_predict]). *)
Inductive onehot_arg : Type :=
| Single (v : vector)
| Batched (rows : tensor2).

Section Pipeline.

(** An image tensor, one image or a batch of them, and [len(images)]. *)
Variable Image : Type.
Variable image_len : Image -> nat.

(** [F.softmax(self.classification_model(image, condition, level), dim=1)]:
    the trained classifier is an external collaborator. *)
Variable softmax_classification_model :
  Image -> onehot_arg -> onehot_arg -> tensor2.

Definition preprocess_input (image : Image) (condition level : string)
  : result (Image * vector * vector) :=
  condition_idx <- dict_getitem condition_map condition ;;
  condition_tensor <- setitem (zeros 5) condition_idx 1 ;;
  level_idx <- dict_getitem level_map level ;;
  level_tensor <- setitem (zeros 5) level_idx 1 ;;
  ret (image, condition_tensor, level_tensor).

Definition predict (image : Image) (condition level : string)
  : result PredictionResult :=
  pre <- preprocess_input image condition level ;;
  let '(image, condition_tensor, level_tensor) := pre in
  let base_probabilities :=
    softmax_classification_model image (Single condition_tensor)
                                 (Single level_tensor) in
  adjusted_predictions <-
    apply_condition_level_adjustments base_probabilities condition level ;;
  confidence <- get_prediction_confidence adjusted_predictions ;;
  severity <- map_rows argmax adjusted_predictions ;;
  ret {| probabilities := adjusted_predictions;
         confidence := confidence;
         severity_prediction := severity;
         original_probabilities := base_probabilities |}.

(** One item of the dataloader.  The dataset's [__getitem__] also puts the
    sample's ['study_id'] in the batch dict. *)
Record Batch : Type := mkBatch {
  batch_image : Image;
  batch_condition : tensor2;
  batch_level : tensor2;
  batch_study_id : list string
}.

(** The body of the inner loop, for sample [i] of a batch. *)
Definition predict_sample (conditions levels probs : tensor2)
  (predictions : list PredictionResult) (i : nat)
  : result (list PredictionResult) :=
  condition_row <- list_getitem conditions i ;;
  condition_idx <- argmax condition_row ;;
  level_row <- list_getitem levels i ;;
  level_idx <- argmax level_row ;;
  condition <- list_getitem (dict_keys condition_weights) condition_idx ;;
  level <- list_getitem (dict_keys level_weights) level_idx ;;
  prob_row <- list_getitem probs i ;;
  adjusted_probs <-
    apply_condition_level_adjustments [prob_row] condition level ;;
  confidence <- get_prediction_confidence adjusted_probs ;;
  severity <- map_rows argmax adjusted_probs ;;
  ret (predictions ++
       [ {| probabilities := adjusted_probs;
            confidence := confidence;
            severity_prediction := severity;
            original_probabilities := [prob_row] |} ])%list.

Definition batch_predict (dataloader : list Batch)
  : result (list PredictionResult) :=
  for_each dataloader
    (fun predictions batch =>
       let images := batch_image batch in
       let conditions := batch_condition batch in
       let levels := batch_level batch in
       let probs :=
         softmax_classification_model images (Batched conditions)
                                      (Batched levels) in
       for_each (seq 0 (image_len images))
                (predict_sample conditions levels probs) predictions)
    [].

End Pipeline.

Arguments mkBatch {Image}.
Arguments batch_image {Image}.
Arguments batch_condition {Image}.
Arguments batch_level {Image}.
Arguments batch_study_id {Image}.
Arguments preprocess_input {Image}.
Arguments predict {Image}.
Arguments batch_predict {Image}.

(** ** Vocabulary of the specification *)

(** The five condition labels and the five level labels, in enumeration
    order. *)
Definition CONDITIONS : list string :=
  [ "Spinal Canal Stenosis";
    "Left Neural Foraminal Narrowing";
    "Right Neural Foraminal Narrowing";
    "Left Subarticular Stenosis";
    "Right Subarticular Stenosis" ].

Definition LEVELS : list string :=
  [ "L1_L2"; "L2_L3"; "L3_L4"; "L4_L5"; "L5_S1" ].

(** A length-[n] vector with a single 1, at index [k]. *)
Definition one_hot (n k : nat) : vector :=
  map (fun i => if Nat.eqb i k then 1 else 0) (seq 0 n).

(** The scalar every probability is multiplied by (source line 113). *)
Definition combined_weight (condition level : string) : Q :=
  dict_get condition_weights condition 0.95 * dict_get level_weights level 0.90.



(** Step 2 of the adjustment: the family a condition resolves to. *)
Definition family (condition : string) : string :=
  if contains "Neural Foraminal Narrowing" condition
  then "Neural Foraminal Narrowing"
  else if contains "Subarticular Stenosis" condition
  then "Subarticular Stenosis"
  else condition.

(** Step 3: the log-loss scalar of the family at a level, when there is one. *)
Definition log_loss (condition level : string) : option Q :=
  match dict_find log_loss_thresholds (family condition) with
  | Some by_level => dict_find by_level level
  | None => None
  end.

(** Step 4: the bias correction of a 3-vector. *)
Definition bias_correction (v : vector) : vector :=
  match v with
  | [normal_mild; moderate; severe] =>
      [normal_mild + 0.1; moderate * 0.95; severe * 0.9]
  | _ => v
  end.

(** Steps 1 to 4: the vector handed to the normalization. *)
Definition pre_normalization (p : vector) (condition level : string) : vector :=
  let scaled := map (fun x => x * combined_weight condition level) p in
  match log_loss condition level with
  | Some t => if Qgtb t 0.8 then bias_correction scaled else scaled
  | None => scaled
  end.

Definition nonneg (v : vector) : Prop := Forall (Qle 0) v.

(** A non-negative input with a strictly positive entry and an L1 norm
    below [normalize_eps]. *)
Definition tiny_input : vector := [1 # 10000000000000; 0; 0].

(** The per-sample pipeline on the probabilities [p] of one sample labelled
    [condition] and [level]: adjustment (weights, bias correction,
    normalization), confidence, severity. *)
Definition sample_result (p : vector) (condition level : string)
  : result PredictionResult :=
  adjusted <- apply_condition_level_adjustments [p] condition level ;;
  confidence <- get_prediction_confidence adjusted ;;
  severity <- map_rows argmax adjusted ;;
  ret {| probabilities := adjusted;
         confidence := confidence;
         severity_prediction := severity;
         original_probabilities := [p] |}.

Definition is_one_hot (row : vector) : Prop :=
  exists k, (k < 5)%nat /\ row = one_hot 5 k.

Section BatchVocabulary.

Context {Image : Type}.
Variable image_len : Image -> nat.
Variable softmax_classification_model :
  Image -> onehot_arg -> onehot_arg -> tensor2.

(** The probabilities the classifier gives for a batch. *)
Definition batch_probs (b : Batch Image) : tensor2 :=
  softmax_classification_model (batch_image b)
    (Batched (batch_condition b)) (Batched (batch_level b)).

(** A batch as the dataset builds it: one one-hot condition row, one one-hot
    level row and one row of 3 probabilities per image. *)
Definition well_formed_batch (b : Batch Image) : Prop :=
  let n := image_len (batch_image b) in
  List.length (batch_condition b) = n
  /\ List.length (batch_level b) = n
  /\ List.length (batch_probs b) = n
  /\ Forall is_one_hot (batch_condition b)
  /\ Forall is_one_hot (batch_level b)
  /\ Forall (fun p => List.length p = 3%nat) (batch_probs b).

(** [r] is what the per-sample pipeline yields for sample [i] of batch [b],
    its labels being those whose one-hot rows the batch holds at [i]. *)
Definition is_sample_result (b : Batch Image) (i : nat) (r : PredictionResult)
  : Prop :=
  exists ci li condition level p,
    nth_error (batch_condition b) i = Some (one_hot 5 ci)
    /\ nth_error CONDITIONS ci = Some condition
    /\ nth_error (batch_level b) i = Some (one_hot 5 li)
    /\ nth_error LEVELS li = Some level
    /\ nth_error (batch_probs b) i = Some p
    /\ sample_result p condition level = inr r.

(** The same batch under other study identifiers. *)
Definition with_study_id (ids : Batch Image -> list string) (b : Batch Image)
  : Batch Image :=
  {| batch_image := batch_image b;
     batch_condition := batch_condition b;
     batch_level := batch_level b;
     batch_study_id := ids b |}.

End BatchVocabulary.

(** ** [LumbarSpineRegDataset] of [src/models/regression_model.py] *)

(** The maps [__init__] stores on the dataset. *)
Definition dataset_condition_map : dict nat :=
  [ ("Spinal Canal Stenosis", 0%nat);
    ("Left Neural Foraminal Narrowing", 1%nat);
    ("Right Neural Foraminal Narrowing", 2%nat);
    ("Left Subarticular Stenosis", 3%nat);
    ("Right Subarticular Stenosis", 4%nat) ].

Definition dataset_level_map : dict nat :=
  [ ("L1_L2", 0%nat); ("L2_L3", 1%nat); ("L3_L4", 2%nat);
    ("L4_L5", 3%nat); ("L5_S1", 4%nat) ].

Definition severity_map : dict Q :=
  [ ("Normal/Mild", 0.0); ("Moderate", 1.0); ("Severe", 2.0) ].

(** [x in xs] on a Python list of strings. *)
Definition str_in (x : string) (xs : list string) : bool :=
  existsb (String.eqb x) xs.

(** The importance weight of [__getitem__]. *)
Definition importance_weight (level severity : string) : Q :=
  let weight := 1.0 in
  let weight :=
    if str_in level ["L4_L5"; "L5_S1"] then weight * 1.5 else weight in
  let weight :=
    if str_in severity ["Moderate"; "Severe"] then weight * 2.0 else weight in
  weight.

Section Dataset.

(** A stored image array and the tensor [__getitem__] makes of it
    ([torch.from_numpy(...).float().permute(2, 0, 1)]). *)
Variable RawImage Image : Type.
Variable to_chw_tensor : RawImage -> Image.

(** One entry of [self.samples]; [__init__] keeps the entries whose
    severity is a string. *)
Record Sample : Type := mkSample {
  sample_image : RawImage;
  sample_condition : string;
  sample_level : string;
  sample_severity : string;
  sample_study_id : string
}.

(** The dict [__getitem__] returns. *)
Record Item : Type := mkItem {
  item_image : Image;
  item_condition : vector;
  item_level : vector;
  item_severity : vector;
  item_weight : vector;
  item_study_id : string
}.

(** [__len__] *)
Definition dataset_len (samples : list Sample) : nat := List.length samples.

(** [__getitem__] *)
Definition dataset_getitem (samples : list Sample) (idx : nat) : result Item :=
  sample <- list_getitem samples idx ;;
  let image := to_chw_tensor (sample_image sample) in
  condition_idx <-
    dict_getitem dataset_condition_map (sample_condition sample) ;;
  condition <-
    setitem (zeros (List.length dataset_condition_map)) condition_idx 1 ;;
  level_idx <- dict_getitem dataset_level_map (sample_level sample) ;;
  level <- setitem (zeros (List.length dataset_level_map)) level_idx 1 ;;
  severity <- dict_getitem severity_map (sample_severity sample) ;;
  let weight :=
    importance_weight (sample_level sample) (sample_severity sample) in
  ret {| item_image := image;
         item_condition := condition;
         item_level := level;
         item_severity := [severity];
         item_weight := [weight];
         item_study_id := sample_study_id sample |}.

End Dataset.

Arguments mkSample {RawImage}.
Arguments sample_image {RawImage}.
Arguments sample_condition {RawImage}.
Arguments sample_level {RawImage}.
Arguments sample_severity {RawImage}.
Arguments sample_study_id {RawImage}.
Arguments mkItem {Image}.
Arguments item_image {Image}.
Arguments item_condition {Image}.
Arguments item_level {Image}.
Arguments item_severity {Image}.
Arguments item_weight {Image}.
Arguments item_study_id {Image}.
Arguments dataset_len {RawImage}.
Arguments dataset_getitem {RawImage Image}.

(** How [batch_predict] reads a label back from a one-hot row: the key of
    the weight table at the [argmax]. *)
Definition decode_label {V : Type} (table : dict V) (row : vector)
  : result string :=
  idx <- argmax row ;;
  list_getitem (dict_keys table) idx.

(** A tensor of [rows] rows of [cols] entries each. *)
Definition has_shape (t : tensor2) (rows cols : nat) : Prop :=
  List.length t = rows /\ Forall (fun r => List.length r = cols) t.

(** Two tensors with as many rows, of the same lengths. *)
Definition same_shape (t t' : tensor2) : Prop :=
  Forall2 (fun r r' => List.length r' = List.length r) t t'.

(** [k] indexes the first of the largest entries of [row]. *)
Definition is_first_maximum (row : vector) (k : nat) : Prop :=
  (k < List.length row)%nat
  /\ (forall j, (j < List.length row)%nat -> nth j row 0 <= nth k row 0)
  /\ (forall j, (j < k)%nat -> nth j row 0 < nth k row 0).

(** ** The training loop of [main] in [src/models/regression_model.py] *)

(** The variables the loop keeps: [best_val_loss] ([None] is
    [float('inf')]), the ['epoch'] of the checkpoint last saved and
    [patience_counter]. *)
Record Training : Type := mkTraining {
  best_val_loss : option Q;
  saved_epoch : option nat;
  patience_counter : nat
}.

Definition num_epochs : nat := 30.
Definition patience : nat := 5.

Definition training_start : Training :=
  {| best_val_loss := None; saved_epoch := None; patience_counter := 0 |}.

(** [val_loss < best_val_loss] *)
Definition improves (val_loss : Q) (best : option Q) : bool :=
  match best with
  | None => true
  | Some b => Qgtb b val_loss
  end.

(** The two branches on the validation loss of one epoch. *)
Definition epoch_step (val_loss : Q) (epoch : nat) (s : Training) : Training :=
  if improves val_loss (best_val_loss s) then
    {| best_val_loss := Some val_loss;
       saved_epoch := Some epoch;
       patience_counter := 0 |}
  else
    {| best_val_loss := best_val_loss s;
       saved_epoch := saved_epoch s;
       patience_counter := S (patience_counter s) |}.

(** [for epoch in epochs: ...; if patience_counter >= patience: break],
    over the validation loss each epoch ends with; returns the variables
    and the last value of [epoch] ([last] when no epoch ran). *)
Fixpoint training_loop (val_loss : nat -> Q) (epochs : list nat)
  (s : Training) (last : nat) : Training * nat :=
  match epochs with
  | [] => (s, last)
  | epoch :: rest =>
      let s' := epoch_step (val_loss epoch) epoch s in
      if (patience <=? patience_counter s')%nat then (s', epoch)
      else training_loop val_loss rest s' epoch
  end.

Definition train (val_loss : nat -> Q) : Training * nat :=
  training_loop val_loss (seq 0 num_epochs) training_start 0.

(** What the loop variables say once epochs [0 .. k-1] have run. *)
Definition checkpoint_invariant (val_loss : nat -> Q) (k : nat) (s : Training)
  : Prop :=
  exists e m,
    best_val_loss s = Some m /\ saved_epoch s = Some e
    /\ (e < k)%nat /\ val_loss e = m
    /\ (forall j, (j < e)%nat -> m < val_loss j)
    /\ (forall j, (e <= j < k)%nat -> m <= val_loss j)
    /\ patience_counter s = (k - 1 - e)%nat.

(** * Properties *)

(** ** Dicts, strings and the error monad *)

Lemma dict_find_None {V : Type} (d : dict V) (k : string) :
  ~ In k (dict_keys d) -> dict_find d k = None.
Proof.
  induction d as [|[k' v] d IH]; simpl; intros Hk; [reflexivity|].
  destruct (String.eqb_spec k' k) as [->|_].
  - exfalso. apply Hk. now left.
  - apply IH. intros Hin. apply Hk. now right.
Qed.


Lemma dict_getitem_missing {V : Type} (d : dict V) (k : string) :
  ~ In k (dict_keys d) -> dict_getitem d k = inl (KeyError k).
Proof.
  intros Hk. unfold dict_getitem. now rewrite dict_find_None.
Qed.

Lemma condition_map_keys : dict_keys condition_map = CONDITIONS.
Proof. reflexivity. Qed.

Lemma level_map_keys : dict_keys level_map = LEVELS.
Proof. reflexivity. Qed.

Lemma condition_weights_keys : dict_keys condition_weights = CONDITIONS.
Proof. reflexivity. Qed.

Lemma level_weights_keys : dict_keys level_weights = LEVELS.
Proof. reflexivity. Qed.

(** Case analysis on membership in one of the two five-element enumerations. *)
Ltac enum_cases H :=
  simpl in H;
  destruct H as [H|[H|[H|[H|[H|[]]]]]]; subst.

Ltac qle_compute := apply Qle_bool_imp_le; reflexivity.

(** Closed side conditions: a bound or a pair of bounds on rationals,
    membership in an enumeration, an equation that computes. *)
Ltac side_condition :=
  first [ solve [apply Qle_bool_imp_le; reflexivity]
        | solve [split; apply Qle_bool_imp_le; reflexivity]
        | solve [simpl; auto 10]
        | reflexivity ].

(** ** The range of the combined weight *)

Lemma combined_weight_bounds (condition level : string) :
  In condition CONDITIONS -> In level LEVELS ->
  0.837 <= combined_weight condition level <= 1.0.
Proof.
  intros Hc Hl. enum_cases Hc; enum_cases Hl; split; qle_compute.
Qed.

(** ** C3: input normalization *)

Lemma nth_error_CONDITIONS (i : nat) (c : string) :
  nth_error CONDITIONS i = Some c ->
  dict_find condition_map c = Some i /\ (i < 5)%nat.
Proof.
  do 5 (destruct i as [|i]; [intros [= <-]; split; [reflexivity|lia]|]).
  destruct i; discriminate.
Qed.

Lemma nth_error_LEVELS (i : nat) (l : string) :
  nth_error LEVELS i = Some l ->
  dict_find level_map l = Some i /\ (i < 5)%nat.
Proof.
  do 5 (destruct i as [|i]; [intros [= <-]; split; [reflexivity|lia]|]).
  destruct i; discriminate.
Qed.

Lemma setitem_zeros_one_hot (i : nat) :
  (i < 5)%nat -> setitem (zeros 5) i 1 = inr (one_hot 5 i).
Proof.
  intros Hi.
  do 5 (destruct i as [|i]; [reflexivity|]). lia.
Qed.

Lemma one_hot_length (n k : nat) : List.length (one_hot n k) = n.
Proof. unfold one_hot. now rewrite length_map, length_seq. Qed.

Lemma one_hot_nth (n k i : nat) :
  (i < n)%nat -> nth i (one_hot n k) 0 = if Nat.eqb i k then 1 else 0.
Proof.
  intros Hi. unfold one_hot.
  rewrite (nth_indep _ 0 ((fun j => if Nat.eqb j k then 1 else 0) 0%nat))
    by now rewrite length_map, length_seq.
  rewrite (map_nth (fun j => if Nat.eqb j k then 1 else 0)).
  now rewrite seq_nth.
Qed.

Lemma log_loss_lookup_valid (condition level : string) :
  In condition CONDITIONS -> In level LEVELS ->
  exists by_level t,
    dict_find log_loss_thresholds (family condition) = Some by_level
    /\ dict_find by_level level = Some t.
Proof.
  intros Hc Hl.
  enum_cases Hc; enum_cases Hl; eexists; eexists; split; reflexivity.
Qed.

Lemma map_rows_error {A B : Type} (P : exn -> Prop) (f : A -> result B)
  (rows : list A) :
  (forall r e, f r = inl e -> P e) ->
  forall e, map_rows f rows = inl e -> P e.
Proof.
  intros Hf. induction rows as [|r rows IH]; simpl; intros e; [discriminate|].
  destruct (f r) as [e'|r'] eqn:Hr; cbn [bind].
  - intros [= <-]. eapply Hf, Hr.
  - destruct (map_rows f rows) as [e'|rest]; cbn [bind ret].
    + intros [= <-]. now apply IH.
    + discriminate.
Qed.

Lemma column_update_error (t : tensor2) (j : nat) (f : Q -> Q) (e : exn) :
  column_update t j f = inl e -> e = IndexError.
Proof.
  apply (map_rows_error (fun e => e = IndexError)).
  intros r e'. destruct (update_at r j f); [discriminate|].
  now intros [= <-].
Qed.

Lemma argmax_error (v : vector) (e : exn) :
  argmax v = inl e -> e = IndexError.
Proof. destruct v; [now intros [= <-] | discriminate]. Qed.

Lemma get_prediction_confidence_error (t : tensor2) (e : exn) :
  get_prediction_confidence t = inl e -> e = IndexError.
Proof.
  apply (map_rows_error (fun e => e = IndexError)).
  intros r e'. unfold row_confidence_with, max_row.
  destruct (map Q2R r); [now intros [= <-] | discriminate].
Qed.

(** The adjustment with its family key made explicit. *)
Lemma apply_unfold (predictions : tensor2) (condition level : string) :
  apply_condition_level_adjustments predictions condition level
  = (by_level <- dict_getitem log_loss_thresholds (family condition) ;;
     log_loss_threshold <- dict_getitem by_level level ;;
     adjusted <-
       (let scaled :=
          map (map (fun x => x * combined_weight condition level)) predictions in
        if Qgtb log_loss_threshold 0.8 then
          a <- column_update scaled 2 (fun x => x * 0.9) ;;
          a <- column_update a 1 (fun x => x * 0.95) ;;
          column_update a 0 (fun x => x + 0.1)
        else ret scaled) ;;
     ret (F_normalize adjusted)).
Proof. reflexivity. Qed.

(** On a valid pair the adjustment raises no [KeyError]; it can only fail
    on a row with fewer than 3 entries. *)
Lemma apply_valid_error (predictions : tensor2) (condition level : string)
  (e : exn) :
  In condition CONDITIONS -> In level LEVELS ->
  apply_condition_level_adjustments predictions condition level = inl e ->
  e = IndexError.
Proof.
  intros Hc Hl.
  destruct (log_loss_lookup_valid condition level Hc Hl)
    as (by_level & t & Hfam & Ht).
  rewrite apply_unfold. unfold dict_getitem. rewrite Hfam. cbn [bind ret].
  rewrite Ht. cbn [bind ret].
  destruct (Qgtb t 0.8); [|discriminate].
  destruct (column_update _ 2 _) as [e2|a2] eqn:H2; cbn [bind].
  { intros [= <-]. eapply column_update_error, H2. }
  destruct (column_update a2 1 _) as [e1|a1] eqn:H1; cbn [bind].
  { intros [= <-]. eapply column_update_error, H1. }
  destruct (column_update a1 0 _) as [e0|a0] eqn:H0; cbn [bind ret].
  { intros [= <-]. eapply column_update_error, H0. }
  discriminate.
Qed.

Section InputNormalization.

Context {Image : Type}.
Variable softmax_classification_model :
  Image -> onehot_arg -> onehot_arg -> tensor2.

Lemma preprocess_input_valid (image : Image) (c l : string) (ci li : nat) :
  nth_error CONDITIONS ci = Some c ->
  nth_error LEVELS li = Some l ->
  preprocess_input image c l = inr (image, one_hot 5 ci, one_hot 5 li).
Proof.
  intros Hc Hl.
  apply nth_error_CONDITIONS in Hc as [Hc Hci].
  apply nth_error_LEVELS in Hl as [Hl Hli].
  unfold preprocess_input, dict_getitem.
  rewrite Hc. cbn [bind ret]. rewrite (setitem_zeros_one_hot ci Hci).
  cbn [bind ret]. rewrite Hl. cbn [bind ret]. rewrite (setitem_zeros_one_hot li Hli). reflexivity.
Qed.

Lemma preprocess_input_bad_condition (image : Image) (c l : string) :
  ~ In c CONDITIONS -> preprocess_input image c l = inl (KeyError c).
Proof.
  intros Hc. unfold preprocess_input.
  now rewrite dict_getitem_missing by (now rewrite condition_map_keys).
Qed.

Lemma preprocess_input_bad_level (image : Image) (c l : string) :
  In c CONDITIONS -> ~ In l LEVELS ->
  preprocess_input image c l = inl (KeyError l).
Proof.
  intros Hc Hl. unfold preprocess_input.
  apply In_nth_error in Hc as [ci Hc].
  apply nth_error_CONDITIONS in Hc as [Hc Hci].
  unfold dict_getitem at 1. rewrite Hc. cbn [bind ret].
  rewrite (setitem_zeros_one_hot ci Hci). cbn [bind ret].
  now rewrite dict_getitem_missing by (now rewrite level_map_keys).
Qed.

Lemma In_CONDITIONS_dec (c : string) : {In c CONDITIONS} + {~ In c CONDITIONS}.
Proof. apply in_dec, string_dec. Qed.

Lemma In_LEVELS_dec (l : string) : {In l LEVELS} + {~ In l LEVELS}.
Proof. apply in_dec, string_dec. Qed.

(** With valid labels [predict] raises no [KeyError]: it can only fail on
    a malformed output of the classifier. *)
Lemma predict_valid_error (image : Image) (c l : string) (e : exn) :
  In c CONDITIONS -> In l LEVELS ->
  predict softmax_classification_model image c l = inl e ->
  e = IndexError.
Proof.
  intros Hc Hl.
  destruct (In_nth_error _ _ Hc) as [ci Hci].
  destruct (In_nth_error _ _ Hl) as [li Hli].
  unfold predict.
  rewrite (preprocess_input_valid image _ _ ci li Hci Hli). cbn [bind].
  destruct (apply_condition_level_adjustments _ c l) as [e1|adjusted] eqn:H1;
    cbn [bind].
  { intros [= <-]. eapply apply_valid_error; eassumption. }
  destruct (get_prediction_confidence adjusted) as [e2|conf] eqn:H2;
    cbn [bind].
  { intros [= <-]. eapply get_prediction_confidence_error, H2. }
  destruct (map_rows argmax adjusted) as [e3|severity] eqn:H3; cbn [bind ret].
  { intros [= <-].
    eapply (map_rows_error (fun e => e = IndexError)); [|exact H3].
    apply argmax_error. }
  discriminate.
Qed.

(** C3. [preprocess_input] raises exactly when the condition or the level
    is outside its five-value enumeration, and what it raises is the
    [KeyError] of the offending label; [predict] raises a [KeyError] exactly
    when [preprocess_input] does, and the same one; for valid labels
    [preprocess_input] returns the image with two one-hot vectors of length
    5 whose 1 sits at the enumeration index of the label. *)
Theorem preprocess_input_labels (image : Image) (condition level : string) :
  (raises (preprocess_input image condition level)
   <-> ~ (In condition CONDITIONS /\ In level LEVELS))
  /\ (forall e, preprocess_input image condition level = inl e ->
                e = KeyError condition \/ e = KeyError level)
  /\ (forall key,
        predict softmax_classification_model image condition level
        = inl (KeyError key)
        <-> preprocess_input image condition level = inl (KeyError key))
  /\ (forall ci li,
        nth_error CONDITIONS ci = Some condition ->
        nth_error LEVELS li = Some level ->
        preprocess_input image condition level
        = inr (image, one_hot 5 ci, one_hot 5 li)
        /\ List.length (one_hot 5 ci) = 5%nat
        /\ List.length (one_hot 5 li) = 5%nat
        /\ (forall i, (i < 5)%nat ->
              nth i (one_hot 5 ci) 0 = (if Nat.eqb i ci then 1 else 0)
              /\ nth i (one_hot 5 li) 0 = (if Nat.eqb i li then 1 else 0))).
Proof.
  assert (Hcases :
    (In condition CONDITIONS /\ In level LEVELS
     /\ exists ci li, preprocess_input image condition level
                      = inr (image, one_hot 5 ci, one_hot 5 li))
    \/ (~ (In condition CONDITIONS /\ In level LEVELS)
        /\ (preprocess_input image condition level
            = inl (KeyError condition)
            \/ preprocess_input image condition level
               = inl (KeyError level)))).
  { destruct (In_CONDITIONS_dec condition) as [Hc|Hc].
    - destruct (In_LEVELS_dec level) as [Hl|Hl].
      + left. split; [exact Hc|]. split; [exact Hl|].
        destruct (In_nth_error _ _ Hc) as [ci Hci].
        destruct (In_nth_error _ _ Hl) as [li Hli].
        exists ci, li. now apply preprocess_input_valid.
      + right. split; [tauto|]. right.
        now apply preprocess_input_bad_level.
    - right. split; [tauto|]. left.
      now apply preprocess_input_bad_condition. }
  split; [|split; [|split]].
  - destruct Hcases as [(Hc & Hl & ci & li & Hok) | (Hno & [Hbad|Hbad])].
    + split; [intros [e He]; congruence | tauto].
    + split; [intros _; exact Hno | intros _; eexists; exact Hbad].
    + split; [intros _; exact Hno | intros _; eexists; exact Hbad].
  - intros e He.
    destruct Hcases as [(_ & _ & ci & li & Hok) | (_ & [Hbad|Hbad])];
      [congruence | left; congruence | right; congruence].
  - intros key. split.
    + intros Hpredict.
      destruct Hcases as [(Hc & Hl & _) | (_ & [Hbad|Hbad])].
      * pose proof (predict_valid_error image _ _ _ Hc Hl Hpredict).
        discriminate.
      * unfold predict in Hpredict. rewrite Hbad in Hpredict.
        cbn [bind] in Hpredict. congruence.
      * unfold predict in Hpredict. rewrite Hbad in Hpredict.
        cbn [bind] in Hpredict. congruence.
    + intros Hpre. unfold predict. now rewrite Hpre.
  - intros ci li Hc Hl. split; [now apply preprocess_input_valid|].
    split; [apply one_hot_length|]. split; [apply one_hot_length|].
    intros i Hi. split; now apply one_hot_nth.
Qed.

End InputNormalization.

Lemma preprocess_input_labels_witness :
  preprocess_input tt "Left Subarticular Stenosis" "L4_L5"
  = inr (tt, [0; 0; 0; 1; 0], [0; 0; 0; 1; 0])
  /\ predict (fun _ _ _ => [[0.2; 0.3; 0.5]]) tt "Scoliosis" "L4_L5"
     = inl (KeyError "Scoliosis").
Proof.
  split.
  - destruct (preprocess_input_labels (fun _ _ _ => [[0.2; 0.3; 0.5]]) tt
                "Left Subarticular Stenosis" "L4_L5") as (_ & _ & _ & Hvalid).
    apply (Hvalid 3%nat 3%nat); reflexivity.
  - destruct (preprocess_input_labels (fun _ _ _ => [[0.2; 0.3; 0.5]]) tt
                "Scoliosis" "L4_L5") as (_ & _ & Hpredict & _).
    apply (Hpredict "Scoliosis"). reflexivity.
Defined.

(** ** C1 and C7: the adjustment, step by step *)

(** On a valid pair the code returns, and what it returns is the
    normalization of [pre_normalization]. *)
Lemma apply_valid (a b c : Q) (condition level : string) :
  In condition CONDITIONS -> In level LEVELS ->
  apply_condition_level_adjustments [[a; b; c]] condition level
  = inr [normalize_row (pre_normalization [a; b; c] condition level)].
Proof.
  intros Hc Hl. enum_cases Hc; enum_cases Hl; reflexivity.
Qed.

Lemma Qgtb_true (x y : Q) : Qgtb x y = true <-> y < x.
Proof.
  unfold Qgtb. rewrite (Qgt_alt x y).
  destruct (x ?= y); split; congruence.
Qed.

Lemma Qgtb_false (x y : Q) : Qgtb x y = false <-> x <= y.
Proof.
  unfold Qgtb. rewrite Qle_alt.
  destruct (x ?= y); split; congruence.
Qed.



(** The family of each of the five conditions. *)
Lemma family_of_conditions :
  map family CONDITIONS
  = [ "Spinal Canal Stenosis";
      "Neural Foraminal Narrowing"; "Neural Foraminal Narrowing";
      "Subarticular Stenosis"; "Subarticular Stenosis" ].
Proof. reflexivity. Qed.


(** ** C2: the calibrated distribution *)

Lemma sum_vector_div (v : vector) (d : Q) :
  sum_vector (map (fun x => x / d) v) == sum_vector v / d.
Proof.
  induction v as [|x v IH]; simpl.
  - unfold Qdiv. ring.
  - rewrite IH. unfold Qdiv. ring.
Qed.

Lemma l1_norm_nonneg (v : vector) : nonneg v -> l1_norm v == sum_vector v.
Proof.
  unfold l1_norm. induction 1 as [|x v Hx _ IH]; simpl.
  - reflexivity.
  - rewrite IH, (Qabs_pos x Hx). reflexivity.
Qed.

Lemma normalize_eps_pos : 0 < normalize_eps.
Proof. reflexivity. Qed.

Lemma normalize_denominator_pos (v : vector) :
  0 < Qmax (l1_norm v) normalize_eps.
Proof.
  apply Qlt_le_trans with normalize_eps;
    [apply normalize_eps_pos | apply Q.le_max_r].
Qed.

Lemma normalize_row_nonneg (v : vector) : nonneg v -> nonneg (normalize_row v).
Proof.
  intros Hv. unfold normalize_row, nonneg. apply Forall_map.
  eapply Forall_impl; [|exact Hv].
  intros x Hx. cbv beta.
  apply Qle_shift_div_l; [apply normalize_denominator_pos|].
  now rewrite Qmult_0_l.
Qed.

Lemma normalize_row_sum (v : vector) :
  nonneg v -> normalize_eps <= l1_norm v -> sum_vector (normalize_row v) == 1.
Proof.
  intros Hv Heps. unfold normalize_row.
  rewrite sum_vector_div, (Q.max_l _ _ Heps), (l1_norm_nonneg v Hv).
  apply Qmult_inv_r.
  rewrite <- (l1_norm_nonneg v Hv). intros Hz. rewrite Hz in Heps.
  revert Heps. apply Qlt_not_le, normalize_eps_pos.
Qed.

Lemma pre_normalization_cases (p : vector) (condition level : string) :
  let scaled := map (fun x => x * combined_weight condition level) p in
  pre_normalization p condition level = scaled
  \/ pre_normalization p condition level = bias_correction scaled.
Proof.
  unfold pre_normalization.
  destruct (log_loss condition level) as [t|]; [|now left].
  destruct (Qgtb t 0.8); [now right | now left].
Qed.

Lemma pre_normalization_nonneg (a b c : Q) (condition level : string) :
  0 <= a -> 0 <= b -> 0 <= c ->
  In condition CONDITIONS -> In level LEVELS ->
  nonneg (pre_normalization [a; b; c] condition level).
Proof.
  intros Ha Hb Hc Hcond Hlev.
  destruct (combined_weight_bounds condition level Hcond Hlev) as [Hw _].
  assert (H0w : 0 <= combined_weight condition level) by lra.
  pose proof (Qmult_le_0_compat _ _ Ha H0w) as Haw.
  pose proof (Qmult_le_0_compat _ _ Hb H0w) as Hbw.
  pose proof (Qmult_le_0_compat _ _ Hc H0w) as Hcw.
  destruct (pre_normalization_cases [a; b; c] condition level) as [-> | ->];
    simpl; repeat constructor; lra.
Qed.

(** An input that sums to 1 keeps the L1 norm above the [eps] of the
    normalization. *)
Lemma distribution_above_eps (a b c : Q) (condition level : string) :
  0 <= a -> 0 <= b -> 0 <= c -> a + b + c == 1 ->
  In condition CONDITIONS -> In level LEVELS ->
  normalize_eps <= l1_norm (pre_normalization [a; b; c] condition level).
Proof.
  intros Ha Hb Hc Hsum Hcond Hlev.
  rewrite l1_norm_nonneg by now apply pre_normalization_nonneg.
  destruct (combined_weight_bounds condition level Hcond Hlev) as [Hw _].
  assert (H0w : 0 <= combined_weight condition level) by lra.
  pose proof (Qmult_le_0_compat _ _ Ha H0w) as Haw.
  pose proof (Qmult_le_0_compat _ _ Hb H0w) as Hbw.
  pose proof (Qmult_le_0_compat _ _ Hc H0w) as Hcw.
  assert (Hscaled : a * combined_weight condition level
                    + b * combined_weight condition level
                    + c * combined_weight condition level
                    == combined_weight condition level).
  { transitivity ((a + b + c) * combined_weight condition level); [ring|].
    rewrite Hsum. ring. }
  unfold normalize_eps.
  destruct (pre_normalization_cases [a; b; c] condition level) as [-> | ->];
    simpl; lra.
Qed.

(** C2, as stated, fails: on the valid pair ("Spinal Canal Stenosis",
    "L1_L2") the non-negative input [1e-13, 0, 0] has a strictly positive
    entry, its L1 norm is below the 1e-12 that the normalization divides by
    at least, and the output sums to 0.1. *)
Lemma calibrated_sum_counterexample :
  nonneg tiny_input /\ Exists (Qlt 0) tiny_input
  /\ In "Spinal Canal Stenosis" CONDITIONS /\ In "L1_L2" LEVELS
  /\ exists out,
       apply_condition_level_adjustments
         [tiny_input] "Spinal Canal Stenosis" "L1_L2" = inr [out]
       /\ sum_vector out == 0.1
       /\ ~ Qabs (sum_vector out - 1) <= 0.000001.
Proof.
  split; [repeat constructor; discriminate|].
  split; [left; reflexivity|].
  split; [simpl; auto|]. split; [simpl; auto|].
  eexists. split; [reflexivity|]. split; [reflexivity|].
  apply Qlt_not_le. reflexivity.
Qed.

(** C2, amended. For a 3-vector of probabilities (every entry between 0 and
    1) and a valid pair, when the L1 norm of the pre-normalization vector is
    at least 1e-12, the code returns a vector with non-negative entries that
    sum to 1, so within 1e-6 of 1. *)
Theorem calibrated_distribution (a b c : Q) (condition level : string) :
  0 <= a <= 1 -> 0 <= b <= 1 -> 0 <= c <= 1 ->
  In condition CONDITIONS -> In level LEVELS ->
  normalize_eps <= l1_norm (pre_normalization [a; b; c] condition level) ->
  exists out,
    apply_condition_level_adjustments [[a; b; c]] condition level = inr [out]
    /\ nonneg out
    /\ sum_vector out == 1
    /\ Qabs (sum_vector out - 1) <= 0.000001.
Proof.
  intros [Ha _] [Hb _] [Hc _] Hcond Hlev Heps.
  exists (normalize_row (pre_normalization [a; b; c] condition level)).
  pose proof (pre_normalization_nonneg a b c condition level
                Ha Hb Hc Hcond Hlev) as Hpre.
  split; [now apply apply_valid|].
  split; [now apply normalize_row_nonneg|].
  pose proof (normalize_row_sum _ Hpre Heps) as Hsum.
  split; [exact Hsum|].
  rewrite Hsum. apply Qle_bool_imp_le. reflexivity.
Qed.

Lemma calibrated_distribution_witness :
  exists out,
    apply_condition_level_adjustments
      [[0.2; 0.3; 0.5]] "Spinal Canal Stenosis" "L4_L5" = inr [out]
    /\ nonneg out
    /\ sum_vector out == 1
    /\ Qabs (sum_vector out - 1) <= 0.000001.
Proof.
  apply (calibrated_distribution 0.2 0.3 0.5 "Spinal Canal Stenosis" "L4_L5");
    try (split; apply Qle_bool_imp_le; reflexivity);
    try (apply Qle_bool_imp_le; reflexivity); simpl; auto 10.
Defined.

(** ** C6 and C9: the confidence score *)

Lemma ln_3_pos : (0 < ln 3)%R.
Proof. rewrite <- ln_1. apply ln_increasing; lra. Qed.

Lemma Q2R_zero : Q2R 0 = 0%R.
Proof. unfold Q2R. simpl. lra. Qed.

Lemma Q2R_one : Q2R 1 = 1%R.
Proof. unfold Q2R. simpl. lra. Qed.

(** C6. On a 3-vector the confidence is the largest entry times one minus
    the entropy over ln 3, the entropy being minus the sum of
    p * ln (p + 1e-7); and with the 1e-7 replaced by 0 the confidence of the
    uniform distribution is exactly 0. *)
Theorem confidence_formula (a b c : Q) :
  get_prediction_confidence [[a; b; c]]
  = inr [ (Rmax (Rmax (Q2R a) (Q2R b)) (Q2R c)
           * (1 - (- (Q2R a * ln (Q2R a + 1 / 10000000)
                      + Q2R b * ln (Q2R b + 1 / 10000000)
                      + Q2R c * ln (Q2R c + 1 / 10000000))) / ln 3))%R ]
  /\ row_confidence_with 0 [1 / 3; 1 / 3; 1 / 3]%R = inr 0%R.
Proof.
  split.
  - unfold get_prediction_confidence, row_confidence_with, entropy_with,
      max_row, log_eps.
    cbn [map_rows map bind ret fold_left fold_right].
    apply f_equal. apply (f_equal (fun x => [x])).
    rewrite Rplus_0_r, Rplus_assoc. reflexivity.
  - unfold row_confidence_with, entropy_with, max_row.
    cbn [map bind ret fold_left fold_right].
    apply f_equal.
    replace (1 / 3 + 0)%R with (/ 3)%R by lra.
    rewrite ln_Rinv by lra.
    pose proof ln_3_pos as Hln.
    unfold Rmax. destruct (Rle_dec (1 / 3) (1 / 3)); field; lra.
Qed.

(** With the 1e-7 of the code in place the uniform distribution does not
    score 0: the constant lowers the entropy below ln 3. *)
Lemma confidence_uniform_with_eps :
  exists conf,
    row_confidence_with log_eps [1 / 3; 1 / 3; 1 / 3]%R = inr conf
    /\ (0 < conf)%R.
Proof.
  eexists. split; [reflexivity|].
  assert (Hlt : (ln (1 / 3 + log_eps) < ln 3)%R)
    by (apply ln_increasing; unfold log_eps; lra).
  pose proof ln_3_pos as Hln.
  assert (Hmax : (fold_left Rmax [1 / 3; 1 / 3] (1 / 3) = 1 / 3)%R).
  { cbn [fold_left]. rewrite (Rmax_left (1 / 3) (1 / 3)) by lra.
    apply Rmax_left. lra. }
  rewrite Hmax.
  apply Rmult_lt_0_compat; [lra|].
  unfold entropy_with. cbn [map fold_right].
  assert (Hent : (- (1 / 3 * ln (1 / 3 + log_eps)
                     + (1 / 3 * ln (1 / 3 + log_eps)
                        + (1 / 3 * ln (1 / 3 + log_eps) + 0))) / ln 3
                  = - ln (1 / 3 + log_eps) / ln 3)%R) by (field; lra).
  rewrite Hent.
  assert (Hlow : (- ln 3 < ln (1 / 3 + log_eps))%R).
  { replace (- ln 3)%R with (ln (/ 3)) by (rewrite ln_Rinv; lra).
    apply ln_increasing; unfold log_eps; lra. }
  replace (1 - - ln (1 / 3 + log_eps) / ln 3)%R
    with ((ln 3 + ln (1 / 3 + log_eps)) / ln 3)%R by (field; lra).
  apply Rdiv_lt_0_compat; lra.
Qed.

Lemma confidence_degenerate :
  get_prediction_confidence [[1; 0; 0]]
  = inr [ (1 + ln (1 + 1 / 10000000) / ln 3)%R ].
Proof.
  unfold get_prediction_confidence, row_confidence_with, entropy_with,
    max_row, log_eps.
  cbn [map_rows map bind ret fold_left fold_right].
  apply f_equal. apply (f_equal (fun x => [x])).
  rewrite Q2R_zero, Q2R_one.
  rewrite (Rmax_left 1 0) by lra. rewrite (Rmax_left 1 0) by lra.
  pose proof ln_3_pos. field. lra.
Qed.

(** C9. The confidence is not clamped: the distribution [1, 0, 0] is
    non-negative and sums to 1, and the code scores it
    1 + ln (1 + 1e-7) / ln 3, which is above 1. *)
Theorem confidence_not_clamped :
  exists (p : vector) (conf : R),
    nonneg p /\ sum_vector p == 1
    /\ get_prediction_confidence [p] = inr [conf]
    /\ conf = (1 + ln (1 + 1 / 10000000) / ln 3)%R
    /\ ~ (0 <= conf <= 1)%R.
Proof.
  exists [1; 0; 0], (1 + ln (1 + 1 / 10000000) / ln 3)%R.
  split; [repeat constructor; discriminate|].
  split; [reflexivity|].
  split; [exact confidence_degenerate|].
  split; [reflexivity|].
  pose proof ln_3_pos as Hln.
  assert (Hpos : (0 < ln (1 + 1 / 10000000))%R)
    by (rewrite <- ln_1; apply ln_increasing; lra).
  assert (Hfrac : (0 < ln (1 + 1 / 10000000) / ln 3)%R)
    by (apply Rdiv_lt_0_compat; assumption).
  lra.
Qed.


(** ** C10: labels outside the tables *)

Lemma log_loss_thresholds_levels (key : string) (by_level : dict Q) :
  dict_find log_loss_thresholds key = Some by_level ->
  dict_keys by_level = LEVELS.
Proof.
  unfold log_loss_thresholds. cbn [dict_find].
  repeat match goal with
         | |- context [String.eqb ?a key] => destruct (String.eqb a key)
         end;
    intros [= <-]; reflexivity.
Qed.

Lemma log_loss_thresholds_missing (key : string) :
  key <> "Spinal Canal Stenosis" ->
  key <> "Neural Foraminal Narrowing" ->
  key <> "Subarticular Stenosis" ->
  dict_getitem log_loss_thresholds key = inl (KeyError key).
Proof.
  intros H1 H2 H3. apply dict_getitem_missing.
  simpl. intros [H|[H|[H|[]]]]; congruence.
Qed.

Lemma apply_unknown_condition
  (predictions : tensor2) (condition level : string) :
  contains "Neural Foraminal Narrowing" condition = false ->
  contains "Subarticular Stenosis" condition = false ->
  condition <> "Spinal Canal Stenosis" ->
  apply_condition_level_adjustments predictions condition level
  = inl (KeyError condition).
Proof.
  intros Hn Hs Hc. rewrite apply_unfold. unfold family. rewrite Hn, Hs.
  rewrite log_loss_thresholds_missing; [reflexivity | assumption | |].
  - intros ->. discriminate Hn.
  - intros ->. discriminate Hs.
Qed.

Lemma apply_unknown_level
  (predictions : tensor2) (condition level : string) :
  ~ In level LEVELS ->
  exists key,
    apply_condition_level_adjustments predictions condition level
    = inl (KeyError key)
    /\ (key = level \/ key = condition).
Proof.
  intros Hl. rewrite apply_unfold.
  unfold dict_getitem at 1.
  destruct (dict_find log_loss_thresholds (family condition))
    as [by_level|] eqn:Hfind.
  - exists level. split; [|now left]. cbn [bind ret].
    rewrite dict_getitem_missing; [reflexivity|].
    now rewrite (log_loss_thresholds_levels _ _ Hfind).
  - exists condition. split; [|now right]. cbn [bind raise].
    revert Hfind. unfold family.
    destruct (contains "Neural Foraminal Narrowing" condition);
      [discriminate|].
    destruct (contains "Subarticular Stenosis" condition); [discriminate|].
    reflexivity.
Qed.

(** C10, as stated, fails in its conclusion: "Bilateral Subarticular
    Stenosis" is in no table, so its weight is the fallback 0.95, yet it
    contains a family substring, the lookup succeeds, and the code returns
    a calibrated result computed with that fallback. *)
Lemma fallback_weight_counterexample :
  ~ In "Bilateral Subarticular Stenosis" CONDITIONS
  /\ dict_find condition_weights "Bilateral Subarticular Stenosis" = None
  /\ apply_condition_level_adjustments
       [[0.2; 0.3; 0.5]] "Bilateral Subarticular Stenosis" "L4_L5"
     = inr (F_normalize [[0.2 * (0.95 * 0.90) + 0.1;
                          0.3 * (0.95 * 0.90) * 0.95;
                          0.5 * (0.95 * 0.90) * 0.9]]).
Proof.
  split; [simpl; intuition discriminate|].
  split; reflexivity.
Qed.

(** C10, amended. A condition that contains neither family substring and is
    not "Spinal Canal Stenosis" makes the code raise the [KeyError] of the
    log-loss lookup, whatever the level; so does a level outside the five,
    whatever the condition. Hence a completed result has a recognized level,
    and its condition is recognized or contains a family substring: the
    level fallback 0.90 never reaches a result, the condition fallback 0.95
    only through a family substring. *)
Theorem unknown_label_lookup
  (predictions : tensor2) (condition level : string) :
  (contains "Neural Foraminal Narrowing" condition = false ->
   contains "Subarticular Stenosis" condition = false ->
   condition <> "Spinal Canal Stenosis" ->
   apply_condition_level_adjustments predictions condition level
   = inl (KeyError condition))
  /\ (~ In level LEVELS ->
      exists key,
        apply_condition_level_adjustments predictions condition level
        = inl (KeyError key))
  /\ (forall out,
        apply_condition_level_adjustments predictions condition level
        = inr out ->
        In level LEVELS
        /\ (In condition CONDITIONS
            \/ contains "Neural Foraminal Narrowing" condition = true
            \/ contains "Subarticular Stenosis" condition = true)).
Proof.
  split; [apply apply_unknown_condition|].
  split.
  - intros Hl.
    destruct (apply_unknown_level predictions condition level Hl)
      as (key & H & _).
    exists key. exact H.
  - intros out Hout. split.
    + destruct (in_dec string_dec level LEVELS) as [Hl|Hl]; [exact Hl|].
      destruct (apply_unknown_level predictions condition level Hl)
        as (key & H & _).
      congruence.
    + destruct (contains "Neural Foraminal Narrowing" condition) eqn:Hn;
        [now right; left|].
      destruct (contains "Subarticular Stenosis" condition) eqn:Hs;
        [now right; right|].
      left.
      destruct (string_dec condition "Spinal Canal Stenosis") as [->|Hc];
        [now left|].
      rewrite (apply_unknown_condition predictions _ level Hn Hs Hc) in Hout.
      discriminate.
Qed.

Lemma unknown_label_lookup_witness :
  apply_condition_level_adjustments [[0.2; 0.3; 0.5]] "Scoliosis" "L4_L5"
  = inl (KeyError "Scoliosis")
  /\ (exists key,
        apply_condition_level_adjustments
          [[0.2; 0.3; 0.5]] "Spinal Canal Stenosis" "T12_L1"
        = inl (KeyError key))
  /\ In "L4_L5" LEVELS.
Proof.
  split; [|split].
  - apply (unknown_label_lookup [[0.2; 0.3; 0.5]] "Scoliosis" "L4_L5");
      [reflexivity | reflexivity | discriminate].
  - apply (unknown_label_lookup [[0.2; 0.3; 0.5]]
             "Spinal Canal Stenosis" "T12_L1").
    simpl. intuition discriminate.
  - eapply (unknown_label_lookup [[0.2; 0.3; 0.5]]
              "Bilateral Subarticular Stenosis" "L4_L5").
    reflexivity.
Defined.


(** ** C5: the weight that scales the predictions *)

(** The adjustment once the log-loss of the pair is known. *)
Lemma apply_with_log_loss (predictions : tensor2) (condition level : string)
  (t : Q) :
  log_loss condition level = Some t ->
  apply_condition_level_adjustments predictions condition level
  = (adjusted <-
       (let scaled :=
          map (map (fun x => x * combined_weight condition level)) predictions in
        if Qgtb t 0.8 then
          a <- column_update scaled 2 (fun x => x * 0.9) ;;
          a <- column_update a 1 (fun x => x * 0.95) ;;
          column_update a 0 (fun x => x + 0.1)
        else ret scaled) ;;
     ret (F_normalize adjusted)).
Proof.
  unfold log_loss. intros Ht. rewrite apply_unfold. unfold dict_getitem.
  destruct (dict_find log_loss_thresholds (family condition)) as [by_level|];
    [|discriminate].
  cbn [bind ret]. rewrite Ht. reflexivity.
Qed.







(** ** C8 and C4: batches *)

Lemma for_each_ext {A S : Type} (xs : list A) (body body' : S -> A -> result S) :
  (forall s x, body s x = body' s x) ->
  forall s, for_each xs body s = for_each xs body' s.
Proof.
  intros Hext. induction xs as [|x xs IH]; intros s; simpl; [reflexivity|].
  rewrite Hext. destruct (body' s x); simpl; [reflexivity|apply IH].
Qed.

Lemma for_each_map {A B S : Type} (g : A -> B) (xs : list A)
  (body : S -> B -> result S) (s : S) :
  for_each (map g xs) body s = for_each xs (fun s x => body s (g x)) s.
Proof.
  revert s. induction xs as [|x xs IH]; intros s; simpl; [reflexivity|].
  destruct (body s (g x)); simpl; [reflexivity|apply IH].
Qed.

(** A loop whose body appends the outputs of each item appends, in order,
    the outputs of all items. *)
Lemma for_each_appends {A B : Type} (R : A -> list B -> Prop) (xs : list A)
  (body : list B -> A -> result (list B)) :
  (forall acc x, In x xs ->
     exists ys, body acc x = inr (acc ++ ys)%list /\ R x ys) ->
  forall acc,
    exists yss,
      for_each xs body acc = inr (acc ++ List.concat yss)%list /\ Forall2 R xs yss.
Proof.
  induction xs as [|x xs IH]; intros Hbody acc.
  - exists []. simpl. rewrite app_nil_r. split; [reflexivity|constructor].
  - destruct (Hbody acc x (or_introl eq_refl)) as (ys & Hx & HR).
    destruct (IH (fun acc' x' Hin => Hbody acc' x' (or_intror Hin))
                 (acc ++ ys)%list) as (yss & Hxs & HRs).
    exists (ys :: yss). simpl. rewrite Hx. cbn [bind].
    rewrite Hxs, <- app_assoc. split; [reflexivity|now constructor].
Qed.

Lemma Forall2_singletons {A B : Type} (R : A -> B -> Prop)
  (xs : list A) (yss : list (list B)) :
  Forall2 (fun x ys => exists y, ys = [y] /\ R x y) xs yss ->
  Forall2 R xs (List.concat yss).
Proof.
  induction 1 as [|x ys xs yss (y & -> & Hy) _ IH]; simpl; now constructor.
Qed.

Lemma argmax_one_hot (k : nat) : (k < 5)%nat -> argmax (one_hot 5 k) = inr k.
Proof.
  intros Hk. do 5 (destruct k as [|k]; [reflexivity|]). lia.
Qed.

Lemma nth_error_lt_5 (xs : list string) (i : nat) (x : string) :
  List.length xs = 5%nat -> nth_error xs i = Some x -> (i < 5)%nat.
Proof.
  intros Hlen Hi. rewrite <- Hlen. apply nth_error_Some. congruence.
Qed.

(** The per-sample pipeline returns on a row of 3 probabilities and a valid
    pair. *)
Lemma sample_result_returns (p : vector) (condition level : string) :
  List.length p = 3%nat ->
  In condition CONDITIONS -> In level LEVELS ->
  exists r, sample_result p condition level = inr r.
Proof.
  intros Hp Hc Hl.
  destruct p as [|a [|b [|c [|]]]]; try discriminate Hp.
  pose proof (apply_valid a b c _ _ Hc Hl) as Happly.
  unfold sample_result.
  destruct (pre_normalization_cases [a; b; c] condition level) as [E | E];
    rewrite E in Happly; rewrite Happly; eexists; reflexivity.
Qed.

(** One iteration of the inner loop, once the one-hot rows are decoded. *)
Lemma predict_sample_decoded
  (conditions levels probs : tensor2) (acc : list PredictionResult)
  (i ci li : nat) (condition level : string) (p : vector) :
  nth_error conditions i = Some (one_hot 5 ci) ->
  nth_error CONDITIONS ci = Some condition ->
  nth_error levels i = Some (one_hot 5 li) ->
  nth_error LEVELS li = Some level ->
  nth_error probs i = Some p ->
  predict_sample conditions levels probs acc i
  = (r <- sample_result p condition level ;; ret (acc ++ [r])%list).
Proof.
  intros Hci Hc Hli Hl Hp.
  pose proof (nth_error_lt_5 CONDITIONS ci condition eq_refl Hc) as Hci5.
  pose proof (nth_error_lt_5 LEVELS li level eq_refl Hl) as Hli5.
  unfold predict_sample, list_getitem.
  rewrite Hci, Hli, Hp. cbn [bind ret].
  rewrite (argmax_one_hot ci Hci5), (argmax_one_hot li Hli5). cbn [bind].
  rewrite condition_weights_keys, level_weights_keys, Hc, Hl. cbn [bind ret].
  unfold sample_result.
  destruct (apply_condition_level_adjustments [p] condition level)
    as [e|adjusted]; [reflexivity|]. cbn [bind].
  destruct (get_prediction_confidence adjusted) as [e|conf];
    [reflexivity|]. cbn [bind].
  destruct (map_rows argmax adjusted) as [e|severity]; reflexivity.
Qed.

Lemma Forall_nth_error {A : Type} (P : A -> Prop) (xs : list A) (i : nat) :
  Forall P xs -> (i < List.length xs)%nat ->
  exists x, nth_error xs i = Some x /\ P x.
Proof.
  intros HP Hi.
  destruct (nth_error xs i) as [x|] eqn:Hx.
  - exists x. split; [reflexivity|].
    rewrite Forall_forall in HP. apply HP. eapply nth_error_In, Hx.
  - apply nth_error_None in Hx. lia.
Qed.

Lemma one_hot_label (enum : list string) (row : vector) :
  List.length enum = 5%nat -> is_one_hot row ->
  exists k label, row = one_hot 5 k /\ nth_error enum k = Some label.
Proof.
  intros Hlen (k & Hk & ->).
  destruct (nth_error enum k) as [label|] eqn:Hlabel.
  - now exists k, label.
  - apply nth_error_None in Hlabel. lia.
Qed.

Section Batches.

Context {Image : Type}.
Variable image_len : Image -> nat.
Variable softmax_classification_model :
  Image -> onehot_arg -> onehot_arg -> tensor2.

Local Abbreviation infer := softmax_classification_model.

(** [predict] is the per-sample pipeline on what the classifier gives for
    the one-hot vectors of the two labels. *)
Lemma predict_is_sample_result
  (image : Image) (condition level : string) (ci li : nat) (p : vector) :
  nth_error CONDITIONS ci = Some condition ->
  nth_error LEVELS li = Some level ->
  infer image (Single (one_hot 5 ci)) (Single (one_hot 5 li)) = [p] ->
  predict infer image condition level = sample_result p condition level.
Proof.
  intros Hc Hl Hp. unfold predict.
  rewrite (preprocess_input_valid image _ _ ci li Hc Hl). cbn [bind].
  rewrite Hp. reflexivity.
Qed.

(** The inner loop on a well-formed batch: one result per sample, appended
    in order, each the per-sample pipeline on that sample. *)
Lemma inner_loop_per_sample (b : Batch Image) :
  well_formed_batch image_len infer b ->
  forall acc,
    exists results,
      for_each (seq 0 (image_len (batch_image b)))
               (predict_sample (batch_condition b) (batch_level b)
                               (batch_probs infer b)) acc
      = inr (acc ++ results)%list
      /\ Forall2 (is_sample_result infer b)
                 (seq 0 (image_len (batch_image b))) results.
Proof.
  intros (Hlc & Hll & Hlp & Hc & Hl & Hp) acc.
  destruct (for_each_appends
              (fun i ys => exists y, ys = [y] /\ is_sample_result infer b i y)
              (seq 0 (image_len (batch_image b)))
              (predict_sample (batch_condition b) (batch_level b)
                              (batch_probs infer b)))
    with (acc := acc) as (yss & Hrun & Hyss).
  - intros acc' i Hi. apply in_seq in Hi.
    destruct (Forall_nth_error _ (batch_condition b) i Hc)
      as (crow & Hcrow & Hone_c); [lia|].
    destruct (Forall_nth_error _ (batch_level b) i Hl)
      as (lrow & Hlrow & Hone_l); [lia|].
    destruct (Forall_nth_error _ (batch_probs infer b) i Hp)
      as (p & Hprow & Hp3); [lia|].
    destruct (one_hot_label CONDITIONS crow eq_refl Hone_c)
      as (ci & condition & -> & Hcond).
    destruct (one_hot_label LEVELS lrow eq_refl Hone_l)
      as (li & level & -> & Hlev).
    destruct (sample_result_returns p condition level Hp3
                (nth_error_In _ _ Hcond) (nth_error_In _ _ Hlev))
      as (r & Hr).
    exists [r]. split.
    + rewrite (predict_sample_decoded _ _ _ acc' i ci li condition level p
                 Hcrow Hcond Hlrow Hlev Hprow).
      rewrite Hr. reflexivity.
    + exists r. split; [reflexivity|].
      now exists ci, li, condition, level, p.
  - exists (List.concat yss). split; [exact Hrun|].
    now apply Forall2_singletons.
Qed.

Lemma per_batch_length (dataloader : list (Batch Image))
  (per_batch : list (list PredictionResult)) :
  Forall2 (fun b results =>
             Forall2 (is_sample_result infer b)
                     (seq 0 (image_len (batch_image b))) results)
          dataloader per_batch ->
  List.length (List.concat per_batch)
  = list_sum (map (fun b => image_len (batch_image b)) dataloader).
Proof.
  induction 1 as [|b results bs rss Hb _ IH]; simpl; [reflexivity|].
  rewrite length_app, IH. apply Forall2_length in Hb.
  rewrite length_seq in Hb. now rewrite <- Hb.
Qed.

(** C8. On well-formed batches [batch_predict] returns, batch after batch
    and sample after sample, exactly one result per sample in input order;
    the condition and the level of a sample are the enumeration entries at
    the index of the 1 of its one-hot rows; and the result is what the
    per-sample pipeline yields for that sample's probabilities and labels. *)
Theorem batch_predict_per_sample (dataloader : list (Batch Image)) :
  Forall (well_formed_batch image_len infer) dataloader ->
  exists per_batch : list (list PredictionResult),
    batch_predict image_len infer dataloader = inr (List.concat per_batch)
    /\ Forall2 (fun b results =>
                  Forall2 (is_sample_result infer b)
                          (seq 0 (image_len (batch_image b))) results)
               dataloader per_batch
    /\ List.length (List.concat per_batch)
       = list_sum (map (fun b => image_len (batch_image b)) dataloader).
Proof.
  intros Hwf. unfold batch_predict.
  destruct (for_each_appends
              (fun b results =>
                 Forall2 (is_sample_result infer b)
                         (seq 0 (image_len (batch_image b))) results)
              dataloader
              (fun predictions batch =>
                 for_each (seq 0 (image_len (batch_image batch)))
                   (predict_sample (batch_condition batch) (batch_level batch)
                      (infer (batch_image batch)
                         (Batched (batch_condition batch))
                         (Batched (batch_level batch))))
                   predictions))
    with (acc := @nil PredictionResult) as (per_batch & Hrun & Hper).
  - intros acc b Hb. rewrite Forall_forall in Hwf.
    apply (inner_loop_per_sample b (Hwf b Hb) acc).
  - exists per_batch. split; [exact Hrun|]. split; [exact Hper|].
    now apply per_batch_length.
Qed.

(** C4, amended. [batch_predict] reads the image, the condition rows and
    the level rows of a batch and nothing else: under any other study
    identifiers it returns the same results, whose four fields hold no
    identifier. *)
Theorem batch_predict_ignores_study_id
  (ids : Batch Image -> list string) (dataloader : list (Batch Image)) :
  batch_predict image_len infer (map (with_study_id ids) dataloader)
  = batch_predict image_len infer dataloader.
Proof.
  unfold batch_predict. rewrite for_each_map.
  apply for_each_ext. intros predictions batch. reflexivity.
Qed.

End Batches.

(** A dataloader of one batch of two samples, over a classifier that gives
    every sample the probabilities [0.2, 0.3, 0.5]. *)
Lemma batch_predict_per_sample_witness :
  exists per_batch : list (list PredictionResult),
    batch_predict (fun n : nat => n) (fun n _ _ => repeat [0.2; 0.3; 0.5] n)
      [mkBatch 2%nat [one_hot 5 0; one_hot 5 3] [one_hot 5 3; one_hot 5 0]
               ["study-1"; "study-2"]]
    = inr (List.concat per_batch)
    /\ Forall2 (fun b results =>
                  Forall2 (is_sample_result
                             (fun n _ _ => repeat [0.2; 0.3; 0.5] n) b)
                          (seq 0 (batch_image b)) results)
               [mkBatch 2%nat [one_hot 5 0; one_hot 5 3]
                        [one_hot 5 3; one_hot 5 0] ["study-1"; "study-2"]]
               per_batch
    /\ List.length (List.concat per_batch)
       = list_sum (map (fun b => batch_image b)
                       [mkBatch 2%nat [one_hot 5 0; one_hot 5 3]
                          [one_hot 5 3; one_hot 5 0] ["study-1"; "study-2"]]).
Proof.
  apply (batch_predict_per_sample (fun n : nat => n)
           (fun n _ _ => repeat [0.2; 0.3; 0.5] n)).
  repeat constructor;
    solve [ reflexivity
          | exists 0%nat; split; [lia | reflexivity]
          | exists 3%nat; split; [lia | reflexivity] ].
Defined.

(** C4, as stated, fails: two dataloaders that differ in the study
    identifier alone get the same single result, so nothing read off a
    result gives the identifier back. *)
Lemma study_id_counterexample :
  let image_len := fun _ : unit => 1%nat in
  let infer := fun (_ : unit) (_ _ : onehot_arg) => [[0.2; 0.3; 0.5]] in
  let batch_a := mkBatch tt [one_hot 5 0] [one_hot 5 3] ["study-A"] in
  let batch_b := mkBatch tt [one_hot 5 0] [one_hot 5 3] ["study-B"] in
  (exists r, batch_predict image_len infer [batch_a] = inr [r]
             /\ batch_predict image_len infer [batch_b] = inr [r])
  /\ batch_study_id batch_a <> batch_study_id batch_b
  /\ ~ (exists id_of : PredictionResult -> string,
          forall dataloader results,
            batch_predict image_len infer dataloader = inr results ->
            map id_of results = flat_map batch_study_id dataloader).
Proof.
  intros image_len infer batch_a batch_b.
  assert (Hsame : exists r, batch_predict image_len infer [batch_a] = inr [r]
                            /\ batch_predict image_len infer [batch_b] = inr [r])
    by (eexists; split; reflexivity).
  split; [exact Hsame|]. split; [discriminate|].
  intros (id_of & Hid). destruct Hsame as (r & Ha & Hb).
  pose proof (Hid _ _ Ha) as Hida. pose proof (Hid _ _ Hb) as Hidb.
  simpl in Hida, Hidb. congruence.
Qed.


(** * Further properties of the code *)

(** ** Encoding and decoding labels *)

Lemma decode_one_hot_condition (ci : nat) (c : string) :
  nth_error CONDITIONS ci = Some c ->
  decode_label condition_weights (one_hot 5 ci) = inr c.
Proof.
  intros Hc. unfold decode_label.
  rewrite (argmax_one_hot ci (nth_error_lt_5 CONDITIONS ci c eq_refl Hc)).
  cbn [bind]. unfold list_getitem.
  now rewrite condition_weights_keys, Hc.
Qed.

Lemma decode_one_hot_level (li : nat) (l : string) :
  nth_error LEVELS li = Some l ->
  decode_label level_weights (one_hot 5 li) = inr l.
Proof.
  intros Hl. unfold decode_label.
  rewrite (argmax_one_hot li (nth_error_lt_5 LEVELS li l eq_refl Hl)).
  cbn [bind]. unfold list_getitem.
  now rewrite level_weights_keys, Hl.
Qed.

(** Whatever [preprocess_input] returns comes from valid labels. *)
Lemma preprocess_input_inv {Image : Type} (image image' : Image)
  (c l : string) (ct lt : vector) :
  preprocess_input image c l = inr (image', ct, lt) ->
  exists ci li,
    nth_error CONDITIONS ci = Some c /\ nth_error LEVELS li = Some l
    /\ image' = image /\ ct = one_hot 5 ci /\ lt = one_hot 5 li.
Proof.
  intros Hpre.
  destruct (In_CONDITIONS_dec c) as [Hc|Hc].
  - destruct (In_LEVELS_dec l) as [Hl|Hl].
    + destruct (In_nth_error _ _ Hc) as [ci Hci].
      destruct (In_nth_error _ _ Hl) as [li Hli].
      rewrite (preprocess_input_valid image _ _ ci li Hci Hli) in Hpre.
      injection Hpre as <- <- <-. now exists ci, li.
    + rewrite (preprocess_input_bad_level image _ _ Hc Hl) in Hpre.
      discriminate.
  - rewrite (preprocess_input_bad_condition image _ _ Hc) in Hpre.
    discriminate.
Qed.

(** X1. The one-hot vectors [preprocess_input] builds from a condition and
    a level are read back by [batch_predict]'s decoding (argmax, then the
    key of the weight table at that index) as the same condition and
    level. *)
Theorem preprocess_decode_roundtrip {Image : Type} (image image' : Image)
  (condition level : string) (condition_tensor level_tensor : vector) :
  preprocess_input image condition level
  = inr (image', condition_tensor, level_tensor) ->
  decode_label condition_weights condition_tensor = inr condition
  /\ decode_label level_weights level_tensor = inr level.
Proof.
  intros Hpre.
  destruct (preprocess_input_inv _ _ _ _ _ _ Hpre)
    as (ci & li & Hc & Hl & _ & -> & ->).
  split; [now apply decode_one_hot_condition|now apply decode_one_hot_level].
Qed.

Lemma preprocess_decode_roundtrip_witness :
  decode_label condition_weights [0; 0; 1; 0; 0]
  = inr "Right Neural Foraminal Narrowing"
  /\ decode_label level_weights [0; 0; 0; 0; 1] = inr "L5_S1".
Proof.
  apply (preprocess_decode_roundtrip tt tt
           "Right Neural Foraminal Narrowing" "L5_S1").
  reflexivity.
Defined.

(** The decoding steps of one iteration of [batch_predict], as two
    [decode_label]s, when both one-hot rows are there. *)
Lemma predict_sample_decode
  (conditions levels probs : tensor2) (acc : list PredictionResult)
  (i : nat) (crow lrow p : vector) (condition level : string) :
  nth_error conditions i = Some crow ->
  nth_error levels i = Some lrow ->
  nth_error probs i = Some p ->
  decode_label condition_weights crow = inr condition ->
  decode_label level_weights lrow = inr level ->
  predict_sample conditions levels probs acc i
  = (r <- sample_result p condition level ;; ret (acc ++ [r])%list).
Proof.
  intros Hci Hli Hp Hc Hl.
  unfold decode_label in Hc, Hl.
  destruct (argmax crow) as [e|ci] eqn:Hac; [discriminate|].
  destruct (argmax lrow) as [e|li] eqn:Hal; [discriminate|].
  cbn [bind] in Hc, Hl.
  unfold predict_sample. unfold list_getitem at 1 2 5.
  rewrite Hci, Hli, Hp. cbn [bind ret]. rewrite Hac, Hal. cbn [bind].
  rewrite Hc, Hl. cbn [bind].
  unfold sample_result.
  destruct (apply_condition_level_adjustments [p] condition level)
    as [e|adjusted]; [reflexivity|]. cbn [bind].
  destruct (get_prediction_confidence adjusted) as [e|conf];
    [reflexivity|]. cbn [bind].
  destruct (map_rows argmax adjusted) as [e|severity]; reflexivity.
Qed.

(** X2. [batch_predict] on a dataloader of one batch holding one sample,
    whose one-hot rows are those [preprocess_input] builds for a condition
    and a level, returns the one-element list of what [predict] returns for
    that image, condition and level (and raises what [predict] raises),
    when the classifier gives the same single row of probabilities in both
    calls. *)
Theorem batch_of_one_is_predict {Image : Type}
  (image_len : Image -> nat)
  (softmax_classification_model :
     Image -> onehot_arg -> onehot_arg -> tensor2)
  (image : Image) (condition level : string)
  (condition_tensor level_tensor p : vector) (ids : list string) :
  preprocess_input image condition level
  = inr (image, condition_tensor, level_tensor) ->
  image_len image = 1%nat ->
  softmax_classification_model image
    (Single condition_tensor) (Single level_tensor) = [p] ->
  softmax_classification_model image
    (Batched [condition_tensor]) (Batched [level_tensor]) = [p] ->
  batch_predict image_len softmax_classification_model
    [mkBatch image [condition_tensor] [level_tensor] ids]
  = (r <- predict softmax_classification_model image condition level ;;
     ret [r]).
Proof.
  intros Hpre Hlen Hsingle Hbatched.
  destruct (preprocess_input_inv _ _ _ _ _ _ Hpre)
    as (ci & li & Hc & Hl & _ & -> & ->).
  rewrite (predict_is_sample_result softmax_classification_model
             image condition level ci li p Hc Hl Hsingle).
  unfold batch_predict. cbn [for_each batch_image batch_condition batch_level].
  rewrite Hlen, Hbatched. cbn [seq for_each].
  rewrite (predict_sample_decode [one_hot 5 ci] [one_hot 5 li] [p] [] 0
             (one_hot 5 ci) (one_hot 5 li) p
             condition level eq_refl eq_refl eq_refl
             (decode_one_hot_condition ci condition Hc)
             (decode_one_hot_level li level Hl)).
  destruct (sample_result p condition level) as [e|r]; reflexivity.
Qed.

Lemma batch_of_one_is_predict_witness :
  batch_predict (fun _ : unit => 1%nat) (fun _ _ _ => [[0.2; 0.3; 0.5]])
    [mkBatch tt [[0; 0; 0; 1; 0]] [[0; 0; 0; 1; 0]] ["study-1"]]
  = (r <- predict (fun _ _ _ => [[0.2; 0.3; 0.5]]) tt
            "Left Subarticular Stenosis" "L4_L5" ;;
     ret [r]).
Proof.
  apply (batch_of_one_is_predict (fun _ : unit => 1%nat)
           (fun _ _ _ => [[0.2; 0.3; 0.5]]) tt
           "Left Subarticular Stenosis" "L4_L5"
           [0; 0; 0; 1; 0] [0; 0; 0; 1; 0] [0.2; 0.3; 0.5] ["study-1"]);
    reflexivity.
Defined.


(** ** The two paths of the adjustment on a 3-vector *)

Lemma pre_normalization_low (p : vector) (condition level : string) (t : Q) :
  log_loss condition level = Some t -> t <= 0.8 ->
  pre_normalization p condition level
  = map (fun x => x * combined_weight condition level) p.
Proof.
  intros Ht Hle. unfold pre_normalization. rewrite Ht.
  apply Qgtb_false in Hle. now rewrite Hle.
Qed.

Lemma pre_normalization_high (p : vector) (condition level : string) (t : Q) :
  log_loss condition level = Some t -> 0.8 < t ->
  pre_normalization p condition level
  = bias_correction (map (fun x => x * combined_weight condition level) p).
Proof.
  intros Ht Hlt. unfold pre_normalization. rewrite Ht.
  apply Qgtb_true in Hlt. now rewrite Hlt.
Qed.

Lemma normalize_row_denominator (v : vector) (s : Q) :
  nonneg v -> sum_vector v == s -> normalize_eps <= s ->
  Qmax (l1_norm v) normalize_eps == s.
Proof.
  intros Hv Hs Heps.
  rewrite Q.max_l; rewrite (l1_norm_nonneg v Hv), Hs; [reflexivity|exact Heps].
Qed.

Lemma normalize_row_clamped (v : vector) :
  nonneg v -> sum_vector v <= normalize_eps ->
  Qmax (l1_norm v) normalize_eps == normalize_eps.
Proof.
  intros Hv Hs. apply Q.max_r. now rewrite (l1_norm_nonneg v Hv).
Qed.

(** X3. On a valid pair whose log-loss is at most 0.8, the weight cancels in
    the normalization: for a 3-vector of probabilities (every entry between
    0 and 1) whose weighted sum reaches the 1e-12 of [F.normalize], the
    output is the input divided by its own sum, so a vector that sums to 1
    comes back unchanged. *)
Theorem low_uncertainty_weight_cancels (a b c t : Q)
  (condition level : string) :
  In condition CONDITIONS -> In level LEVELS ->
  log_loss condition level = Some t -> t <= 0.8 ->
  0 <= a <= 1 -> 0 <= b <= 1 -> 0 <= c <= 1 ->
  normalize_eps <= (a + b + c) * combined_weight condition level ->
  exists out,
    apply_condition_level_adjustments [[a; b; c]] condition level = inr [out]
    /\ Forall2 Qeq out [a / (a + b + c); b / (a + b + c); c / (a + b + c)]
    /\ (a + b + c == 1 -> Forall2 Qeq out [a; b; c]).
Proof.
  intros Hcond Hlev Ht Hle [Ha _] [Hb _] [Hc _] Heps.
  destruct (combined_weight_bounds condition level Hcond Hlev) as [Hw _].
  pose proof (pre_normalization_nonneg a b c condition level
                Ha Hb Hc Hcond Hlev) as Hpre.
  rewrite (pre_normalization_low _ _ _ t Ht Hle) in Hpre.
  eexists. split.
  { rewrite (apply_valid a b c _ _ Hcond Hlev).
    rewrite (pre_normalization_low _ _ _ t Ht Hle). reflexivity. }
  set (w := combined_weight condition level) in *.
  assert (Hd : Qmax (l1_norm (map (fun x => x * w) [a; b; c])) normalize_eps
               == (a + b + c) * w).
  { apply normalize_row_denominator; [exact Hpre| |exact Heps].
    simpl. ring. }
  assert (Hs : ~ a + b + c == 0).
  { intros Hz. rewrite Hz in Heps. revert Heps.
    apply Qlt_not_le. reflexivity. }
  assert (Hw0 : ~ w == 0).
  { intros Hz. rewrite Hz in Hw. revert Hw. apply Qlt_not_le. reflexivity. }
  assert (Hout : Forall2 Qeq (normalize_row (map (fun x => x * w) [a; b; c]))
                   [a / (a + b + c); b / (a + b + c); c / (a + b + c)]).
  { unfold normalize_row. cbn [map].
    repeat constructor; rewrite Hd; field; split; assumption. }
  split; [exact Hout|].
  intros Hsum. unfold normalize_row in *. cbn [map] in *.
  inversion Hout as [|? ? ? ? H0 Hout1]; subst.
  inversion Hout1 as [|? ? ? ? H1 Hout2]; subst.
  inversion Hout2 as [|? ? ? ? H2 _]; subst.
  repeat constructor.
  - rewrite H0, Hsum. field.
  - rewrite H1, Hsum. field.
  - rewrite H2, Hsum. field.
Qed.

Lemma low_uncertainty_weight_cancels_witness :
  exists out,
    apply_condition_level_adjustments
      [[0.2; 0.3; 0.5]] "Left Subarticular Stenosis" "L2_L3" = inr [out]
    /\ Forall2 Qeq out [0.2; 0.3; 0.5].
Proof.
  destruct (low_uncertainty_weight_cancels 0.2 0.3 0.5 0.5337
              "Left Subarticular Stenosis" "L2_L3")
    as (out & Hout & _ & Hsame); try side_condition.
  exists out. split; [exact Hout|]. apply Hsame. reflexivity.
Defined.

(** X4. On the same path a non-negative 3-vector whose weighted sum stays
    at or below 1e-12 is not normalized: every entry is multiplied by the
    weight and divided by 1e-12, the all-zero vector stays all-zero, and the
    output sums to the weighted sum over 1e-12, which is at most 1. *)
Theorem low_uncertainty_below_eps (a b c t : Q) (condition level : string) :
  In condition CONDITIONS -> In level LEVELS ->
  log_loss condition level = Some t -> t <= 0.8 ->
  0 <= a -> 0 <= b -> 0 <= c ->
  (a + b + c) * combined_weight condition level <= normalize_eps ->
  exists out,
    apply_condition_level_adjustments [[a; b; c]] condition level = inr [out]
    /\ Forall2 Qeq out
         [a * combined_weight condition level / normalize_eps;
          b * combined_weight condition level / normalize_eps;
          c * combined_weight condition level / normalize_eps]
    /\ sum_vector out
       == (a + b + c) * combined_weight condition level / normalize_eps
    /\ sum_vector out <= 1.
Proof.
  intros Hcond Hlev Ht Hle Ha Hb Hc Heps.
  pose proof (pre_normalization_nonneg a b c condition level
                Ha Hb Hc Hcond Hlev) as Hpre.
  rewrite (pre_normalization_low _ _ _ t Ht Hle) in Hpre.
  eexists. split.
  { rewrite (apply_valid a b c _ _ Hcond Hlev).
    rewrite (pre_normalization_low _ _ _ t Ht Hle). reflexivity. }
  set (w := combined_weight condition level) in *.
  assert (Hd : Qmax (l1_norm (map (fun x => x * w) [a; b; c])) normalize_eps
               == normalize_eps).
  { apply normalize_row_clamped; [exact Hpre|].
    simpl. setoid_replace (a * w + (b * w + (c * w + 0)))
             with ((a + b + c) * w) by ring.
    exact Heps. }
  assert (Hsum : sum_vector (normalize_row (map (fun x => x * w) [a; b; c]))
                 == (a + b + c) * w / normalize_eps).
  { unfold normalize_row. rewrite sum_vector_div, Hd. simpl.
    unfold Qdiv. ring. }
  split; [|split; [exact Hsum|]].
  - unfold normalize_row. cbn [map].
    repeat constructor; rewrite Hd; reflexivity.
  - rewrite Hsum. apply Qle_shift_div_r; [reflexivity|].
    now rewrite Qmult_1_l.
Qed.

Lemma low_uncertainty_below_eps_witness :
  exists out,
    apply_condition_level_adjustments
      [[0; 0; 0]] "Spinal Canal Stenosis" "L1_L2" = inr [out]
    /\ Forall2 Qeq out
         [0 * combined_weight "Spinal Canal Stenosis" "L1_L2" / normalize_eps;
          0 * combined_weight "Spinal Canal Stenosis" "L1_L2" / normalize_eps;
          0 * combined_weight "Spinal Canal Stenosis" "L1_L2" / normalize_eps]
    /\ sum_vector out
       == (0 + 0 + 0) * combined_weight "Spinal Canal Stenosis" "L1_L2"
          / normalize_eps
    /\ sum_vector out <= 1.
Proof.
  apply (low_uncertainty_below_eps 0 0 0 0.1067
           "Spinal Canal Stenosis" "L1_L2");
    try (apply Qle_bool_imp_le; reflexivity);
    [simpl; auto 10 | simpl; auto 10 | reflexivity].
Defined.

Lemma bias_sum (a b c w : Q) :
  sum_vector (bias_correction (map (fun x => x * w) [a; b; c]))
  == a * w + 0.1 + (b * w * 0.95 + c * w * 0.9).
Proof. simpl. ring. Qed.

(** X5. On a valid pair whose log-loss exceeds 0.8, every 3-vector with
    entries between 0 and 1, the all-zero one included, comes out as a
    non-negative vector that sums to 1: the 0.1 added to Normal/Mild keeps
    the norm above the 1e-12 of [F.normalize]. *)
Theorem high_uncertainty_normalized (a b c t : Q) (condition level : string) :
  In condition CONDITIONS -> In level LEVELS ->
  log_loss condition level = Some t -> 0.8 < t ->
  0 <= a <= 1 -> 0 <= b <= 1 -> 0 <= c <= 1 ->
  exists out,
    apply_condition_level_adjustments [[a; b; c]] condition level = inr [out]
    /\ nonneg out /\ sum_vector out == 1.
Proof.
  intros Hcond Hlev Ht Hlt [Ha _] [Hb _] [Hc _].
  destruct (combined_weight_bounds condition level Hcond Hlev) as [Hw _].
  pose proof (pre_normalization_nonneg a b c condition level
                Ha Hb Hc Hcond Hlev) as Hpre.
  exists (normalize_row (pre_normalization [a; b; c] condition level)).
  split; [now apply apply_valid|].
  split; [now apply normalize_row_nonneg|].
  apply normalize_row_sum; [exact Hpre|].
  rewrite (l1_norm_nonneg _ Hpre).
  rewrite (pre_normalization_high _ _ _ t Ht Hlt), bias_sum.
  set (w := combined_weight condition level) in *.
  assert (H0w : 0 <= w) by lra.
  pose proof (Qmult_le_0_compat _ _ Ha H0w) as Haw.
  pose proof (Qmult_le_0_compat _ _ Hb H0w) as Hbw.
  pose proof (Qmult_le_0_compat _ _ Hc H0w) as Hcw.
  unfold normalize_eps. lra.
Qed.

Lemma high_uncertainty_normalized_witness :
  exists out,
    apply_condition_level_adjustments
      [[0; 0; 0]] "Spinal Canal Stenosis" "L4_L5" = inr [out]
    /\ nonneg out /\ sum_vector out == 1.
Proof.
  apply (high_uncertainty_normalized 0 0 0 0.8928
           "Spinal Canal Stenosis" "L4_L5"); side_condition.
Defined.

(** X6. On such a pair the correction moves a distribution toward
    Normal/Mild: for a non-negative 3-vector that sums to 1, the calibrated
    Normal/Mild probability is at least the raw one, and the calibrated
    Moderate and Severe probabilities are at most the raw ones. *)
Theorem high_uncertainty_shift (a b c t : Q) (condition level : string) :
  In condition CONDITIONS -> In level LEVELS ->
  log_loss condition level = Some t -> 0.8 < t ->
  0 <= a -> 0 <= b -> 0 <= c -> a + b + c == 1 ->
  exists normal_mild moderate severe,
    apply_condition_level_adjustments [[a; b; c]] condition level
    = inr [[normal_mild; moderate; severe]]
    /\ a <= normal_mild /\ moderate <= b /\ severe <= c.
Proof.
  intros Hcond Hlev Ht Hlt Ha Hb Hc Hsum.
  destruct (combined_weight_bounds condition level Hcond Hlev) as [Hw Hw1].
  pose proof (pre_normalization_nonneg a b c condition level
                Ha Hb Hc Hcond Hlev) as Hpre.
  rewrite (pre_normalization_high _ _ _ t Ht Hlt) in Hpre.
  do 3 eexists. split.
  { rewrite (apply_valid a b c _ _ Hcond Hlev).
    rewrite (pre_normalization_high _ _ _ t Ht Hlt). reflexivity. }
  set (w := combined_weight condition level) in *.
  assert (H0w : 0 <= w) by lra.
  pose proof (Qmult_le_0_compat _ _ Ha H0w) as Haw.
  pose proof (Qmult_le_0_compat _ _ Hb H0w) as Hbw.
  pose proof (Qmult_le_0_compat _ _ Hc H0w) as Hcw.
  set (s := a * w + 0.1 + (b * w * 0.95 + c * w * 0.9)).
  assert (Hs : 0.1 <= s) by (unfold s; lra).
  assert (Hd : Qmax (l1_norm (bias_correction (map (fun x => x * w) [a; b; c])))
                 normalize_eps == s).
  { apply normalize_row_denominator; [exact Hpre|apply bias_sum|].
    unfold normalize_eps. lra. }
  assert (Hc1 : c <= 1) by lra.
  assert (Ha1 : a <= 1) by lra.
  assert (Hwc : w * c <= 1).
  { assert (Hwc' : w * c <= 1 * c)
      by (apply Qmult_le_compat_r; [lra|assumption]).
    lra. }
  assert (Hwa : 0 <= w * a) by (apply Qmult_le_0_compat; assumption).
  assert (Hwb : 0 <= w * b) by (apply Qmult_le_0_compat; assumption).
  cbn [map bias_correction]. rewrite !Hd.
  assert (Hspos : 0 < s) by lra.
  split; [|split].
  - apply Qle_shift_div_l; [exact Hspos|].
    assert (Hab : 0 <= a * (w * b))
      by (apply Qmult_le_0_compat; assumption).
    assert (Hac : 0 <= a * (w * c)).
    { apply Qmult_le_0_compat; [assumption|].
      apply Qmult_le_0_compat; assumption. }
    assert (Hbc : 0 <= 0.1 * (b + c)) by lra.
    setoid_replace (a * s)
      with (a * w * (a + b + c) + 0.1 * a
            - 0.05 * (a * (w * b)) - 0.1 * (a * (w * c)))
      by (unfold s; ring).
    rewrite Hsum. lra.
  - apply Qle_shift_div_r; [exact Hspos|].
    assert (Hbs : 0 <= b * (0.1 - 0.05 * (w * c)))
      by (apply Qmult_le_0_compat; [assumption|lra]).
    assert (Hba : 0 <= b * (w * a))
      by (apply Qmult_le_0_compat; assumption).
    setoid_replace (b * s)
      with (b * w * 0.95 * (a + b + c)
            + b * (0.1 - 0.05 * (w * c))
            + 0.05 * (b * (w * a)))
      by (unfold s; ring).
    rewrite Hsum. lra.
  - apply Qle_shift_div_r; [exact Hspos|].
    assert (Hca : 0 <= c * (w * a))
      by (apply Qmult_le_0_compat; assumption).
    assert (Hcb : 0 <= c * (w * b))
      by (apply Qmult_le_0_compat; assumption).
    setoid_replace (c * s)
      with (c * w * 0.9 * (a + b + c) + 0.1 * c
            + 0.1 * (c * (w * a)) + 0.05 * (c * (w * b)))
      by (unfold s; ring).
    rewrite Hsum. lra.
Qed.

Lemma high_uncertainty_shift_witness :
  exists normal_mild moderate severe,
    apply_condition_level_adjustments
      [[0.2; 0.3; 0.5]] "Left Subarticular Stenosis" "L4_L5"
    = inr [[normal_mild; moderate; severe]]
    /\ 0.2 <= normal_mild /\ moderate <= 0.3 /\ severe <= 0.5.
Proof.
  apply (high_uncertainty_shift 0.2 0.3 0.5 1.1551
           "Left Subarticular Stenosis" "L4_L5");
    try (apply Qle_bool_imp_le; reflexivity);
    [simpl; auto 10 | simpl; auto 10 | reflexivity | reflexivity | reflexivity].
Defined.


(** ** Tensors of any shape *)

Lemma update_at_Some (r : vector) (j : nat) (f : Q -> Q) :
  (j < List.length r)%nat ->
  exists r', update_at r j f = Some r' /\ List.length r' = List.length r.
Proof.
  revert j. induction r as [|x r IH]; intros j Hj; simpl in Hj; [lia|].
  destruct j as [|j]; simpl.
  - eexists. split; reflexivity.
  - destruct (IH j) as (r' & -> & Hlen); [lia|].
    eexists. split; [reflexivity|]. simpl. now rewrite Hlen.
Qed.

Lemma update_at_None (r : vector) (j : nat) (f : Q -> Q) :
  (List.length r <= j)%nat -> update_at r j f = None.
Proof.
  revert j. induction r as [|x r IH]; intros j Hj; [reflexivity|].
  simpl in Hj. destruct j as [|j]; [lia|]. simpl.
  rewrite IH by lia. reflexivity.
Qed.

Lemma same_shape_trans (t1 t2 t3 : tensor2) :
  same_shape t1 t2 -> same_shape t2 t3 -> same_shape t1 t3.
Proof.
  unfold same_shape. intros H12. revert t3.
  induction H12 as [|r1 r2 t1 t2 Hr _ IH]; intros t3 H23;
    inversion H23; subst; constructor; [congruence|now apply IH].
Qed.

Lemma same_shape_map (f : vector -> vector) (t : tensor2) :
  (forall r, List.length (f r) = List.length r) -> same_shape t (map f t).
Proof.
  intros Hf. induction t; simpl; constructor; auto.
Qed.

Lemma same_shape_Forall (P : nat -> Prop) (t t' : tensor2) :
  same_shape t t' ->
  Forall (fun r => P (List.length r)) t ->
  Forall (fun r => P (List.length r)) t'.
Proof.
  induction 1 as [|r r' t t' Hr _ IH]; intros Ht; [constructor|].
  inversion Ht; subst. constructor; [now rewrite Hr|now apply IH].
Qed.

Lemma column_update_ok (t : tensor2) (j : nat) (f : Q -> Q) :
  Forall (fun r => (j < List.length r)%nat) t ->
  exists t', column_update t j f = inr t' /\ same_shape t t'.
Proof.
  unfold column_update.
  induction 1 as [|r t Hr _ (t' & IH & Hshape)]; simpl.
  - exists []. split; [reflexivity|constructor].
  - destruct (update_at_Some r j f Hr) as (r' & -> & Hlen).
    cbn [bind ret]. rewrite IH. cbn [bind ret].
    exists (r' :: t'). split; [reflexivity|now constructor].
Qed.

Lemma column_update_short (t : tensor2) (j : nat) (f : Q -> Q) :
  Exists (fun r => (List.length r <= j)%nat) t ->
  column_update t j f = inl IndexError.
Proof.
  intros Hshort.
  destruct (column_update t j f) as [e|t'] eqn:Hcol.
  - now rewrite (column_update_error t j f e Hcol).
  - exfalso. revert t' Hcol. unfold column_update.
    induction Hshort as [r t Hr|r t _ IH]; intros t'; simpl.
    + now rewrite (update_at_None r j f Hr).
    + destruct (update_at r j f); [|discriminate]. cbn [bind ret].
      destruct (map_rows _ t) as [e|rest] eqn:Hrest; [discriminate|].
      intros _. now apply (IH rest).
Qed.

Lemma normalize_row_length (v : vector) :
  List.length (normalize_row v) = List.length v.
Proof. unfold normalize_row. apply length_map. Qed.

Lemma adjustment_returns (predictions : tensor2) (condition level : string)
  (t : Q) :
  log_loss condition level = Some t ->
  t <= 0.8 \/ Forall (fun r => (3 <= List.length r)%nat) predictions ->
  exists out,
    apply_condition_level_adjustments predictions condition level = inr out
    /\ same_shape predictions out.
Proof.
  intros Ht Hok. rewrite (apply_with_log_loss _ _ _ t Ht). cbv zeta.
  set (scaled := map (map (fun x => x * combined_weight condition level))
                     predictions).
  assert (Hscaled : same_shape predictions scaled)
    by (apply same_shape_map; intros r; apply length_map).
  destruct (Qgtb t 0.8) eqn:Hgt.
  - destruct Hok as [Hle|Hrows].
    { apply Qgtb_false in Hle. congruence. }
    pose proof (same_shape_Forall (fun n => (3 <= n)%nat) _ _ Hscaled Hrows)
      as H3.
    destruct (column_update_ok scaled 2 (fun x => x * 0.9))
      as (a2 & -> & Hs2);
      [eapply Forall_impl; [|exact H3]; cbv beta; intros; lia|].
    pose proof (same_shape_Forall (fun n => (3 <= n)%nat) _ _ Hs2 H3) as H32.
    cbn [bind].
    destruct (column_update_ok a2 1 (fun x => x * 0.95))
      as (a1 & -> & Hs1);
      [eapply Forall_impl; [|exact H32]; cbv beta; intros; lia|].
    pose proof (same_shape_Forall (fun n => (3 <= n)%nat) _ _ Hs1 H32) as H31.
    cbn [bind].
    destruct (column_update_ok a1 0 (fun x => x + 0.1))
      as (a0 & -> & Hs0);
      [eapply Forall_impl; [|exact H31]; cbv beta; intros; lia|].
    cbn [bind ret]. eexists. split; [reflexivity|].
    repeat (eapply same_shape_trans; [eassumption|]).
    apply same_shape_map, normalize_row_length.
  - cbn [bind ret]. eexists. split; [reflexivity|].
    eapply same_shape_trans; [exact Hscaled|].
    apply same_shape_map, normalize_row_length.
Qed.

Lemma adjustment_short_row (predictions : tensor2) (condition level : string)
  (t : Q) :
  log_loss condition level = Some t -> 0.8 < t ->
  Exists (fun r => (List.length r < 3)%nat) predictions ->
  apply_condition_level_adjustments predictions condition level
  = inl IndexError.
Proof.
  intros Ht Hlt Hshort. rewrite (apply_with_log_loss _ _ _ t Ht). cbv zeta.
  apply Qgtb_true in Hlt. rewrite Hlt.
  rewrite column_update_short; [reflexivity|].
  apply Exists_exists in Hshort as (r & Hin & Hr).
  apply Exists_exists.
  exists (map (fun x => x * combined_weight condition level) r).
  split; [now apply in_map|]. rewrite length_map. lia.
Qed.

Lemma has_shape_same (t t' : tensor2) (rows cols : nat) :
  has_shape t rows cols -> same_shape t t' -> has_shape t' rows cols.
Proof.
  intros [Hrows Hcols] Hsame. split.
  - rewrite <- Hrows. symmetry. eapply Forall2_length, Hsame.
  - apply (same_shape_Forall (fun n => n = cols) t t' Hsame Hcols).
Qed.

Lemma has_shape_Forall (P : nat -> Prop) (t : tensor2) (rows cols : nat) :
  has_shape t rows cols -> P cols -> Forall (fun r => P (List.length r)) t.
Proof.
  intros [_ Hcols] HP. eapply Forall_impl; [|exact Hcols].
  cbv beta. now intros r ->.
Qed.

Lemma has_shape_Exists (P : nat -> Prop) (t : tensor2) (rows cols : nat) :
  has_shape t (S rows) cols -> P cols ->
  Exists (fun r => P (List.length r)) t.
Proof.
  intros [Hrows Hcols] HP. destruct t as [|r t]; [discriminate|].
  left. inversion Hcols; subst. exact HP.
Qed.

(** X7. On a tensor of at least one row and at least one column, for a pair
    that has a log-loss: when the log-loss is at most 0.8 the adjustment
    returns whatever the number of columns; when it exceeds 0.8 it returns
    if there are at least 3 columns and raises [IndexError] if there are
    fewer. What it returns has the shape of its input. *)
Theorem adjustment_shape (predictions : tensor2) (condition level : string)
  (t : Q) (rows cols : nat) :
  log_loss condition level = Some t ->
  has_shape predictions (S rows) (S cols) ->
  (t <= 0.8 \/ (3 <= S cols)%nat ->
   exists out,
     apply_condition_level_adjustments predictions condition level = inr out
     /\ has_shape out (S rows) (S cols))
  /\ (0.8 < t -> (S cols < 3)%nat ->
      apply_condition_level_adjustments predictions condition level
      = inl IndexError).
Proof.
  intros Ht Hshape. split.
  - intros Hok.
    destruct (adjustment_returns predictions condition level t Ht)
      as (out & Hout & Hsame).
    { destruct Hok as [Hle|Hcols]; [now left|right].
      now apply (has_shape_Forall (fun n => (3 <= n)%nat) _ _ _ Hshape). }
    exists out. split; [exact Hout|].
    now apply (has_shape_same predictions).
  - intros Hlt Hcols.
    apply (adjustment_short_row predictions condition level t Ht Hlt).
    now apply (has_shape_Exists (fun n => (n < 3)%nat) _ _ _ Hshape).
Qed.

Lemma adjustment_shape_witness :
  (exists out,
     apply_condition_level_adjustments
       [[0.5; 0.5]; [0.1; 0.9]] "Spinal Canal Stenosis" "L1_L2" = inr out
     /\ has_shape out 2 2)
  /\ apply_condition_level_adjustments
       [[0.5; 0.5]; [0.1; 0.9]] "Spinal Canal Stenosis" "L4_L5"
     = inl IndexError.
Proof.
  split.
  - apply (adjustment_shape [[0.5; 0.5]; [0.1; 0.9]]
             "Spinal Canal Stenosis" "L1_L2" 0.1067 1 1);
      [reflexivity | repeat constructor |].
    left. apply Qle_bool_imp_le. reflexivity.
  - apply (adjustment_shape [[0.5; 0.5]; [0.1; 0.9]]
             "Spinal Canal Stenosis" "L4_L5" 0.8928 1 1);
      [reflexivity | repeat constructor | reflexivity | lia].
Defined.


(** ** Confidence, severity and [predict] on whole tensors *)

Lemma map_rows_ok {A B : Type} (f : A -> result B) (rows : list A) :
  (forall r, In r rows -> exists b, f r = inr b) ->
  exists out,
    map_rows f rows = inr out /\ List.length out = List.length rows.
Proof.
  induction rows as [|r rows IH]; intros Hf; simpl.
  - exists []. split; reflexivity.
  - destruct (Hf r (or_introl eq_refl)) as (b & ->).
    destruct IH as (out & -> & Hlen); [intros; apply Hf; now right|].
    exists (b :: out). split; [reflexivity|]. simpl. now rewrite Hlen.
Qed.

Lemma map_rows_fails {A B : Type} (f : A -> result B) (rows : list A)
  (e : exn) :
  (forall r e', f r = inl e' -> e' = e) ->
  (exists r, In r rows /\ f r = inl e) ->
  map_rows f rows = inl e.
Proof.
  intros Hone (r & Hin & Hr).
  destruct (map_rows f rows) as [e'|out] eqn:Hrows.
  - now rewrite (map_rows_error (fun x => x = e) f rows Hone e' Hrows).
  - exfalso. revert out Hrows.
    induction rows as [|r0 rows IH]; [destruct Hin|]. intros out; simpl.
    destruct Hin as [->|Hin].
    + now rewrite Hr.
    + destruct (f r0); [discriminate|]. cbn [bind].
      destruct (map_rows f rows) as [e'|rest]; [discriminate|].
      intros _. now apply (IH Hin rest).
Qed.

(** X8. On a tensor of at least one row, [get_prediction_confidence] raises
    [IndexError] when the rows have no entry (the maximum over a dimension
    of size 0) and otherwise returns one confidence per row. *)
Theorem confidence_per_row (predictions : tensor2) (rows cols : nat) :
  has_shape predictions (S rows) cols ->
  (cols = 0%nat -> get_prediction_confidence predictions = inl IndexError)
  /\ ((0 < cols)%nat ->
      exists confidences,
        get_prediction_confidence predictions = inr confidences
        /\ List.length confidences = S rows).
Proof.
  intros Hshape. unfold get_prediction_confidence. split.
  - intros ->. apply map_rows_fails.
    + intros r e. unfold row_confidence_with, max_row.
      destruct (map Q2R r); [now intros [= <-]|discriminate].
    + destruct Hshape as [Hrows Hcols].
      destruct predictions as [|r t]; [discriminate|].
      inversion Hcols as [|? ? Hr _]; subst.
      apply length_zero_iff_nil in Hr. subst r.
      exists []. split; [now left|reflexivity].
  - intros Hpos.
    destruct (map_rows_ok
                (fun row => row_confidence_with log_eps (map Q2R row))
                predictions) as (confidences & Hrun & Hlen).
    { intros r Hr. destruct Hshape as [_ Hcols].
      rewrite Forall_forall in Hcols. specialize (Hcols r Hr).
      destruct r as [|x r]; [simpl in Hcols; lia|].
      eexists. reflexivity. }
    exists confidences. split; [exact Hrun|].
    destruct Hshape as [Hrows _]. congruence.
Qed.

Lemma confidence_per_row_witness :
  get_prediction_confidence [[]; []] = inl IndexError
  /\ exists confidences,
       get_prediction_confidence [[0.2; 0.8]; [1; 0]] = inr confidences
       /\ List.length confidences = 2%nat.
Proof.
  split.
  - apply (confidence_per_row [[]; []] 1 0);
      [repeat constructor | reflexivity].
  - apply (confidence_per_row [[0.2; 0.8]; [1; 0]] 1 2);
      [repeat constructor | lia].
Defined.

Lemma argmax_rows_ok (t : tensor2) :
  Forall (fun r => (3 <= List.length r)%nat) t ->
  exists severity,
    map_rows argmax t = inr severity
    /\ List.length severity = List.length t.
Proof.
  intros Ht. apply map_rows_ok. intros r Hr.
  rewrite Forall_forall in Ht. specialize (Ht r Hr).
  destruct r; [simpl in Ht; lia|]. eexists. reflexivity.
Qed.

(** X9. With a valid condition and level, [predict] returns whenever the
    classifier gives at least one row and at least 3 columns: the result
    keeps the classifier's rows as [original_probabilities], its
    [probabilities] have their shape, and it holds one confidence and one
    severity per row. *)
Theorem predict_returns {Image : Type}
  (softmax_classification_model :
     Image -> onehot_arg -> onehot_arg -> tensor2)
  (image : Image) (condition level : string) (ci li rows cols : nat) :
  nth_error CONDITIONS ci = Some condition ->
  nth_error LEVELS li = Some level ->
  let base :=
    softmax_classification_model image
      (Single (one_hot 5 ci)) (Single (one_hot 5 li)) in
  has_shape base (S rows) cols -> (3 <= cols)%nat ->
  exists r,
    predict softmax_classification_model image condition level = inr r
    /\ original_probabilities r = base
    /\ has_shape (probabilities r) (S rows) cols
    /\ List.length (confidence r) = S rows
    /\ List.length (severity_prediction r) = S rows.
Proof.
  intros Hc Hl base Hshape Hcols.
  pose proof (has_shape_Forall (fun n => (3 <= n)%nat) _ _ _ Hshape Hcols)
    as Hbase.
  destruct (log_loss_lookup_valid condition level
              (nth_error_In _ _ Hc) (nth_error_In _ _ Hl))
    as (by_level & t & Hfam & Ht).
  assert (Hlog : log_loss condition level = Some t)
    by (unfold log_loss; now rewrite Hfam).
  destruct (adjustment_returns base condition level t Hlog
              (or_intror Hbase)) as (out & Hout & Hsame).
  pose proof (same_shape_Forall (fun n => (3 <= n)%nat) _ _ Hsame Hbase)
    as Hout3.
  pose proof (has_shape_same _ _ _ _ Hshape Hsame) as [Hlen Hwidth].
  destruct (argmax_rows_ok out Hout3) as (severity & Hsev & Hsevlen).
  destruct (map_rows_ok (fun row => row_confidence_with log_eps (map Q2R row))
              out) as (conf & Hconf & Hconflen).
  { intros r Hr. rewrite Forall_forall in Hout3. specialize (Hout3 r Hr).
    destruct r; [simpl in Hout3; lia|]. eexists. reflexivity. }
  unfold predict.
  rewrite (preprocess_input_valid image _ _ ci li Hc Hl). cbn [bind].
  fold base. rewrite Hout. cbn [bind].
  unfold get_prediction_confidence. rewrite Hconf. cbn [bind].
  rewrite Hsev. cbn [bind ret].
  eexists. split; [reflexivity|]. cbn.
  split; [reflexivity|]. split; [now split|]. split; congruence.
Qed.

Lemma predict_returns_witness :
  exists r,
    predict (fun (_ : unit) _ _ => [[0.2; 0.3; 0.5]; [0.7; 0.2; 0.1]]) tt
      "Spinal Canal Stenosis" "L4_L5" = inr r
    /\ original_probabilities r = [[0.2; 0.3; 0.5]; [0.7; 0.2; 0.1]]
    /\ has_shape (probabilities r) 2 3
    /\ List.length (confidence r) = 2%nat
    /\ List.length (severity_prediction r) = 2%nat.
Proof.
  apply (predict_returns
           (fun (_ : unit) _ _ => [[0.2; 0.3; 0.5]; [0.7; 0.2; 0.1]]) tt
           "Spinal Canal Stenosis" "L4_L5" 0%nat 3%nat 1%nat 3%nat);
    [reflexivity | reflexivity | repeat constructor | lia].
Defined.

Lemma argmax_from_spec (l pre : vector) (best : Q) (best_i : nat) :
  (best_i < List.length pre)%nat ->
  nth best_i pre 0 = best ->
  (forall j, (j < List.length pre)%nat -> nth j pre 0 <= best) ->
  (forall j, (j < best_i)%nat -> nth j pre 0 < best) ->
  is_first_maximum (pre ++ l) (argmax_from best best_i (List.length pre) l).
Proof.
  revert pre best best_i.
  induction l as [|x l IH]; intros pre best best_i Hi Hbest Hmax Hfirst.
  - simpl. rewrite app_nil_r. rewrite <- Hbest in Hmax, Hfirst.
    split; [exact Hi|]. split; assumption.
  - simpl. replace (pre ++ x :: l)%list with ((pre ++ [x]) ++ l)%list
      by (rewrite <- app_assoc; reflexivity).
    replace (S (List.length pre)) with (List.length (pre ++ [x])%list)
      by (rewrite length_app; simpl; lia).
    destruct (Qgtb x best) eqn:Hgt.
    + apply Qgtb_true in Hgt.
      assert (Hx : nth (List.length pre) (pre ++ [x]) 0 = x)
        by (rewrite app_nth2 by lia; now rewrite Nat.sub_diag).
      apply IH.
      * rewrite length_app. simpl. lia.
      * exact Hx.
      * intros j Hj. rewrite length_app in Hj. simpl in Hj.
        destruct (Nat.eq_dec j (List.length pre)) as [->|Hne].
        -- rewrite Hx. apply Qle_refl.
        -- rewrite app_nth1 by lia. apply Qlt_le_weak.
           eapply Qle_lt_trans; [apply Hmax; lia|exact Hgt].
      * intros j Hj. rewrite app_nth1 by lia.
        eapply Qle_lt_trans; [apply Hmax; lia|exact Hgt].
    + apply Qgtb_false in Hgt. apply IH.
      * rewrite length_app. simpl. lia.
      * now rewrite app_nth1 by lia.
      * intros j Hj. rewrite length_app in Hj. simpl in Hj.
        destruct (Nat.eq_dec j (List.length pre)) as [->|Hne].
        -- rewrite app_nth2 by lia. now rewrite Nat.sub_diag.
        -- rewrite app_nth1 by lia. apply Hmax. lia.
      * intros j Hj. rewrite app_nth1 by lia. now apply Hfirst.
Qed.

Lemma argmax_spec (row : vector) (k : nat) :
  argmax row = inr k -> is_first_maximum row k.
Proof.
  destruct row as [|x l]; [discriminate|]. intros [= <-].
  apply (argmax_from_spec l [x] x 0%nat).
  - simpl. lia.
  - reflexivity.
  - intros j Hj. simpl in Hj. destruct j; [apply Qle_refl|lia].
  - intros j Hj. lia.
Qed.

Lemma argmax_rows_spec (t : tensor2) (severity : list nat) :
  map_rows argmax t = inr severity -> Forall2 is_first_maximum t severity.
Proof.
  revert severity. induction t as [|row t IH]; intros severity; simpl.
  - intros [= <-]. constructor.
  - destruct (argmax row) as [e|k] eqn:Hk; [discriminate|]. cbn [bind].
    destruct (map_rows argmax t) as [e|rest]; [discriminate|].
    cbn [bind ret]. intros [= <-].
    constructor; [now apply argmax_spec|now apply IH].
Qed.

(** X10. In every result of [predict] and of the per-sample pipeline of
    [batch_predict], the severity reported for a row is a position of that
    row of calibrated probabilities, no entry of the row is larger than the
    one there, and every entry before it is strictly smaller. *)
Theorem severity_is_first_maximum {Image : Type}
  (softmax_classification_model :
     Image -> onehot_arg -> onehot_arg -> tensor2)
  (image : Image) (p : vector) (condition level : string)
  (r : PredictionResult) :
  predict softmax_classification_model image condition level = inr r
  \/ sample_result p condition level = inr r ->
  Forall2 is_first_maximum (probabilities r) (severity_prediction r).
Proof.
  intros [Hr|Hr].
  - unfold predict in Hr.
    destruct (preprocess_input image condition level) as [e|[[im ct] lt]];
      [discriminate|]. cbn [bind] in Hr.
    destruct (apply_condition_level_adjustments _ condition level)
      as [e|adjusted]; [discriminate|]. cbn [bind] in Hr.
    destruct (get_prediction_confidence adjusted) as [e|conf];
      [discriminate|]. cbn [bind] in Hr.
    destruct (map_rows argmax adjusted) as [e|severity] eqn:Hsev;
      [discriminate|].
    cbn [bind ret] in Hr. injection Hr as <-. cbn.
    now apply argmax_rows_spec.
  - unfold sample_result in Hr.
    destruct (apply_condition_level_adjustments [p] condition level)
      as [e|adjusted]; [discriminate|]. cbn [bind] in Hr.
    destruct (get_prediction_confidence adjusted) as [e|conf];
      [discriminate|]. cbn [bind] in Hr.
    destruct (map_rows argmax adjusted) as [e|severity] eqn:Hsev;
      [discriminate|].
    cbn [bind ret] in Hr. injection Hr as <-. cbn.
    now apply argmax_rows_spec.
Qed.

Lemma severity_is_first_maximum_witness :
  exists r,
    sample_result [0.2; 0.3; 0.5] "Spinal Canal Stenosis" "L1_L2" = inr r
    /\ Forall2 is_first_maximum (probabilities r) (severity_prediction r).
Proof.
  eexists. split; [reflexivity|].
  apply (severity_is_first_maximum (fun (_ : unit) _ _ => []) tt
           [0.2; 0.3; 0.5] "Spinal Canal Stenosis" "L1_L2").
  right. reflexivity.
Defined.

(** ** Bounds on the confidence of a distribution *)

Lemma ln_le_sub1 (x : R) : (0 < x -> ln x <= x - 1)%R.
Proof.
  intros Hx. destruct (Rle_or_lt (ln x) (x - 1)) as [H|H]; [exact H|].
  apply exp_increasing in H. rewrite (exp_ln x Hx) in H.
  pose proof (exp_ineq1_le (x - 1)). lra.
Qed.

Lemma ln_le_mono (x y : R) : (0 < x -> x <= y -> ln x <= ln y)%R.
Proof.
  intros Hx [Hlt| ->]; [|lra]. left. now apply ln_increasing.
Qed.

(** Each term of the entropy sum from below ... *)
Lemma entropy_term_lower (p eps : R) :
  (0 <= p -> 0 < eps -> p - 1 / 3 - p * ln 3 <= p * ln (p + eps))%R.
Proof.
  intros Hp Heps.
  assert (Hq : (0 < 3 * (p + eps))%R) by lra.
  pose proof (ln_le_sub1 (/ (3 * (p + eps))) (Rinv_0_lt_compat _ Hq)) as Hln.
  rewrite ln_Rinv in Hln by exact Hq.
  rewrite ln_mult in Hln by lra.
  assert (Hfrac : (p * / (3 * (p + eps)) <= 1 / 3)%R).
  { apply (Rmult_le_reg_r (3 * (p + eps))); [exact Hq|].
    rewrite Rmult_assoc, Rinv_l by lra. lra. }
  assert (Hmul : (p * (1 - / (3 * (p + eps)) - ln 3) <= p * ln (p + eps))%R)
    by (apply Rmult_le_compat_l; lra).
  lra.
Qed.

(** ... and from above. *)
Lemma entropy_term_upper (p eps : R) :
  (0 <= p <= 1 -> 0 < eps -> p * ln (p + eps) <= p * ln (1 + eps))%R.
Proof.
  intros [Hp Hp1] Heps. apply Rmult_le_compat_l; [exact Hp|].
  apply ln_le_mono; lra.
Qed.

Lemma entropy_bounds (a b c eps : R) :
  (0 <= a -> 0 <= b -> 0 <= c -> a + b + c = 1 -> 0 < eps ->
   - ln (1 + eps) <= entropy_with eps [a; b; c] <= ln 3)%R.
Proof.
  intros Ha Hb Hc Hsum Heps. unfold entropy_with. cbn [map fold_right].
  pose proof (entropy_term_lower a eps Ha Heps).
  pose proof (entropy_term_lower b eps Hb Heps).
  pose proof (entropy_term_lower c eps Hc Heps).
  assert (Ha1 : (a <= 1)%R) by lra.
  assert (Hb1 : (b <= 1)%R) by lra.
  assert (Hc1 : (c <= 1)%R) by lra.
  pose proof (entropy_term_upper a eps (conj Ha Ha1) Heps).
  pose proof (entropy_term_upper b eps (conj Hb Hb1) Heps).
  pose proof (entropy_term_upper c eps (conj Hc Hc1) Heps).
  assert (Hlin : (a * ln 3 + b * ln 3 + c * ln 3 = ln 3)%R)
    by (rewrite <- !Rmult_plus_distr_r, Hsum; ring).
  assert (Hlin' : (a * ln (1 + eps) + b * ln (1 + eps) + c * ln (1 + eps)
                   = ln (1 + eps))%R)
    by (rewrite <- !Rmult_plus_distr_r, Hsum; ring).
  lra.
Qed.

Lemma max_row_bounds (a b c : R) :
  (0 <= a -> 0 <= b -> 0 <= c -> a + b + c = 1 ->
   0 <= Rmax (Rmax a b) c <= 1)%R.
Proof.
  intros Ha Hb Hc Hsum. unfold Rmax.
  destruct (Rle_dec a b); destruct (Rle_dec _ c); lra.
Qed.

Lemma row_confidence_bounds (a b c : R) :
  (0 <= a -> 0 <= b -> 0 <= c -> a + b + c = 1 ->
   0 <= Rmax (Rmax a b) c * (1 - entropy_with log_eps [a; b; c] / ln 3)
     <= 1 + ln (1 + log_eps) / ln 3)%R.
Proof.
  intros Ha Hb Hc Hsum.
  pose proof (max_row_bounds _ _ _ Ha Hb Hc Hsum) as [Hm0 Hm1].
  assert (Heps : (0 < log_eps)%R) by (unfold log_eps; lra).
  pose proof (entropy_bounds _ _ _ log_eps Ha Hb Hc Hsum Heps) as [Hlo Hhi].
  pose proof ln_3_pos as Hln3.
  set (m := Rmax (Rmax a b) c) in *.
  set (h := entropy_with log_eps [a; b; c]) in *.
  assert (Hf0 : (0 <= 1 - h / ln 3)%R).
  { replace (1 - h / ln 3)%R with ((ln 3 - h) / ln 3)%R by (field; lra).
    apply Rmult_le_pos; [lra|]. left. now apply Rinv_0_lt_compat. }
  assert (Hf1 : (1 - h / ln 3 <= 1 + ln (1 + log_eps) / ln 3)%R).
  { replace (1 - h / ln 3)%R with (1 + (- h) / ln 3)%R by (field; lra).
    apply Rplus_le_compat_l. unfold Rdiv.
    apply Rmult_le_compat_r; [left; now apply Rinv_0_lt_compat|lra]. }
  split.
  - now apply Rmult_le_pos.
  - assert (Hprod : (m * (1 - h / ln 3) <= 1 * (1 - h / ln 3))%R)
      by (apply Rmult_le_compat_r; assumption).
    lra.
Qed.

Lemma distribution_to_R (a b c : Q) :
  0 <= a -> 0 <= b -> 0 <= c -> a + b + c == 1 ->
  (0 <= Q2R a /\ 0 <= Q2R b /\ 0 <= Q2R c /\ Q2R a + Q2R b + Q2R c = 1)%R.
Proof.
  intros Ha Hb Hc Hsum.
  apply Qle_Rle in Ha, Hb, Hc. rewrite Q2R_zero in Ha, Hb, Hc.
  apply Qeq_eqR in Hsum. rewrite !Q2R_plus, Q2R_one in Hsum. tauto.
Qed.

Lemma ln_3_ge_1 : (1 <= ln 3)%R.
Proof.
  rewrite <- (ln_exp 1). apply ln_le_mono; [apply exp_pos|apply exp_le_3].
Qed.

(** What the 1e-7 inside the logarithm can add is far below 1e-6. *)
Lemma confidence_excess_small :
  (ln (1 + log_eps) / ln 3 <= 1 / 1000000)%R.
Proof.
  assert (Heps : (0 < log_eps)%R) by (unfold log_eps; lra).
  pose proof (ln_le_sub1 (1 + log_eps) ltac:(lra)) as Hln.
  pose proof ln_3_ge_1 as H3.
  assert (Hpos : (0 < ln (1 + log_eps))%R)
    by (rewrite <- ln_1; apply ln_increasing; lra).
  apply (Rmult_le_reg_r (ln 3)); [lra|].
  unfold Rdiv at 1. rewrite Rmult_assoc, Rinv_l by lra.
  unfold log_eps in *. nra.
Qed.

(** X11. For a non-negative 3-vector that sums to 1 the confidence stays
    within 1e-6 of the interval from 0 to 1: the 1e-7 inside the logarithm
    can carry it past 1, but by less than 1e-6. *)
Theorem confidence_bounds (a b c : Q) :
  0 <= a -> 0 <= b -> 0 <= c -> a + b + c == 1 ->
  exists conf,
    get_prediction_confidence [[a; b; c]] = inr [conf]
    /\ (- (1 / 1000000) <= conf <= 1 + 1 / 1000000)%R.
Proof.
  intros Ha Hb Hc Hsum.
  destruct (distribution_to_R a b c Ha Hb Hc Hsum) as (Ha' & Hb' & Hc' & Hsum').
  eexists. split; [reflexivity|].
  cbn [map fold_left].
  match goal with
  | |- (_ <= ?conf <= _)%R =>
      assert (Htight : (0 <= conf <= 1 + ln (1 + log_eps) / ln 3)%R)
        by exact (row_confidence_bounds _ _ _ Ha' Hb' Hc' Hsum')
  end.
  pose proof confidence_excess_small.
  split; lra.
Qed.

Lemma confidence_bounds_witness :
  exists conf,
    get_prediction_confidence [[0.2; 0.3; 0.5]] = inr [conf]
    /\ (- (1 / 1000000) <= conf <= 1 + 1 / 1000000)%R.
Proof.
  apply (confidence_bounds 0.2 0.3 0.5); side_condition.
Defined.


(** ** The dataset *)

Lemma str_in_spec (x : string) (xs : list string) :
  str_in x xs = true <-> In x xs.
Proof.
  unfold str_in. rewrite existsb_exists. split.
  - intros (y & Hy & Heq). apply String.eqb_eq in Heq. now subst.
  - intros Hx. exists x. split; [exact Hx|apply String.eqb_refl].
Qed.

(** X12. The importance weight of a sample is 1, 1.5, 2 or 3: it is 3
    exactly for a sample at L4_L5 or L5_S1 graded Moderate or Severe, and 1
    exactly for a sample at another level graded otherwise. *)
Theorem importance_weight_values (level severity : string) :
  let w := importance_weight level severity in
  (w == 1 \/ w == 1.5 \/ w == 2 \/ w == 3)
  /\ (w == 3 <-> In level ["L4_L5"; "L5_S1"]
                 /\ In severity ["Moderate"; "Severe"])
  /\ (w == 1 <-> ~ In level ["L4_L5"; "L5_S1"]
                 /\ ~ In severity ["Moderate"; "Severe"]).
Proof.
  unfold importance_weight.
  rewrite <- !str_in_spec.
  destruct (str_in level ["L4_L5"; "L5_S1"]);
    destruct (str_in severity ["Moderate"; "Severe"]);
    (split; [|split; split]);
    try (intros [H1 H2]); try intros H;
    first [ discriminate
          | now (exfalso; apply H1)
          | now (exfalso; apply H2)
          | reflexivity
          | (left; reflexivity)
          | (right; left; reflexivity)
          | (right; right; left; reflexivity)
          | (right; right; right; reflexivity)
          | (split; [reflexivity|reflexivity])
          | (split; discriminate) ].
Qed.

Section DatasetProperties.

Context {RawImage Image : Type}.
Variable to_chw_tensor : RawImage -> Image.

Lemma dataset_getitem_found (samples : list (Sample RawImage)) (idx : nat)
  (s : Sample RawImage) (ci li : nat) (v : Q) :
  nth_error samples idx = Some s ->
  nth_error CONDITIONS ci = Some (sample_condition s) ->
  nth_error LEVELS li = Some (sample_level s) ->
  dict_find severity_map (sample_severity s) = Some v ->
  dataset_getitem to_chw_tensor samples idx
  = inr {| item_image := to_chw_tensor (sample_image s);
           item_condition := one_hot 5 ci;
           item_level := one_hot 5 li;
           item_severity := [v];
           item_weight :=
             [importance_weight (sample_level s) (sample_severity s)];
           item_study_id := sample_study_id s |}.
Proof.
  intros Hs Hc Hl Hv.
  apply nth_error_CONDITIONS in Hc as [Hc Hci].
  apply nth_error_LEVELS in Hl as [Hl Hli].
  unfold dataset_getitem, list_getitem, dict_getitem.
  rewrite Hs. cbn [bind ret].
  change dataset_condition_map with condition_map.
  change dataset_level_map with level_map.
  change (List.length condition_map) with 5%nat.
  change (List.length level_map) with 5%nat.
  rewrite Hc. cbn [bind ret]. rewrite (setitem_zeros_one_hot ci Hci).
  cbn [bind ret]. rewrite Hl. cbn [bind ret].
  rewrite (setitem_zeros_one_hot li Hli). cbn [bind ret].
  rewrite Hv. reflexivity.
Qed.

Lemma dataset_getitem_bad_condition (samples : list (Sample RawImage))
  (idx : nat) (s : Sample RawImage) :
  nth_error samples idx = Some s ->
  ~ In (sample_condition s) CONDITIONS ->
  dataset_getitem to_chw_tensor samples idx
  = inl (KeyError (sample_condition s)).
Proof.
  intros Hs Hc. unfold dataset_getitem, list_getitem.
  rewrite Hs. cbn [bind ret].
  now rewrite dict_getitem_missing.
Qed.

Lemma dataset_getitem_bad_level (samples : list (Sample RawImage))
  (idx : nat) (s : Sample RawImage) :
  nth_error samples idx = Some s ->
  In (sample_condition s) CONDITIONS ->
  ~ In (sample_level s) LEVELS ->
  dataset_getitem to_chw_tensor samples idx
  = inl (KeyError (sample_level s)).
Proof.
  intros Hs Hc Hl. unfold dataset_getitem, list_getitem.
  rewrite Hs. cbn [bind ret].
  apply In_nth_error in Hc as [ci Hc].
  apply nth_error_CONDITIONS in Hc as [Hc Hci].
  unfold dict_getitem at 1.
  change dataset_condition_map with condition_map.
  change (List.length condition_map) with 5%nat.
  rewrite Hc. cbn [bind ret]. rewrite (setitem_zeros_one_hot ci Hci).
  cbn [bind ret]. now rewrite dict_getitem_missing.
Qed.

Lemma dataset_getitem_bad_severity (samples : list (Sample RawImage))
  (idx : nat) (s : Sample RawImage) :
  nth_error samples idx = Some s ->
  In (sample_condition s) CONDITIONS ->
  In (sample_level s) LEVELS ->
  ~ In (sample_severity s) (dict_keys severity_map) ->
  dataset_getitem to_chw_tensor samples idx
  = inl (KeyError (sample_severity s)).
Proof.
  intros Hs Hc Hl Hv. unfold dataset_getitem, list_getitem.
  rewrite Hs. cbn [bind ret].
  apply In_nth_error in Hc as [ci Hc].
  apply nth_error_CONDITIONS in Hc as [Hc Hci].
  apply In_nth_error in Hl as [li Hl].
  apply nth_error_LEVELS in Hl as [Hl Hli].
  unfold dict_getitem at 1 2.
  change dataset_condition_map with condition_map.
  change dataset_level_map with level_map.
  change (List.length condition_map) with 5%nat.
  change (List.length level_map) with 5%nat.
  rewrite Hc. cbn [bind ret]. rewrite (setitem_zeros_one_hot ci Hci).
  cbn [bind ret]. rewrite Hl. cbn [bind ret].
  rewrite (setitem_zeros_one_hot li Hli). cbn [bind ret].
  now rewrite dict_getitem_missing.
Qed.

Lemma dataset_getitem_out_of_range (samples : list (Sample RawImage))
  (idx : nat) :
  (dataset_len samples <= idx)%nat ->
  dataset_getitem to_chw_tensor samples idx = inl IndexError.
Proof.
  intros Hidx. unfold dataset_getitem, list_getitem.
  apply nth_error_None in Hidx. now rewrite Hidx.
Qed.

(** X13. [__getitem__] raises [IndexError] at an index that is not below
    [__len__]; at a stored sample it raises the [KeyError] of the first of
    condition, level and severity that is in no map, in that order; and it
    returns when all three are in their maps. *)
Theorem dataset_getitem_errors (samples : list (Sample RawImage)) (idx : nat) :
  ((dataset_len samples <= idx)%nat ->
   dataset_getitem to_chw_tensor samples idx = inl IndexError)
  /\ (forall s,
        nth_error samples idx = Some s ->
        (~ In (sample_condition s) CONDITIONS ->
         dataset_getitem to_chw_tensor samples idx
         = inl (KeyError (sample_condition s)))
        /\ (In (sample_condition s) CONDITIONS ->
            ~ In (sample_level s) LEVELS ->
            dataset_getitem to_chw_tensor samples idx
            = inl (KeyError (sample_level s)))
        /\ (In (sample_condition s) CONDITIONS ->
            In (sample_level s) LEVELS ->
            ~ In (sample_severity s) ["Normal/Mild"; "Moderate"; "Severe"] ->
            dataset_getitem to_chw_tensor samples idx
            = inl (KeyError (sample_severity s)))
        /\ (In (sample_condition s) CONDITIONS ->
            In (sample_level s) LEVELS ->
            In (sample_severity s) ["Normal/Mild"; "Moderate"; "Severe"] ->
            exists item,
              dataset_getitem to_chw_tensor samples idx = inr item)).
Proof.
  split; [apply dataset_getitem_out_of_range|].
  intros s Hs. split; [now apply dataset_getitem_bad_condition|].
  split; [now apply dataset_getitem_bad_level|].
  split; [now apply dataset_getitem_bad_severity|].
  intros Hc Hl Hv.
  apply In_nth_error in Hc as [ci Hc]. apply In_nth_error in Hl as [li Hl].
  assert (Hfind : exists v, dict_find severity_map (sample_severity s) = Some v).
  { destruct Hv as [<-|[<-|[<-|[]]]]; eexists; reflexivity. }
  destruct Hfind as [v Hfind].
  eexists. now apply (dataset_getitem_found samples idx s ci li v).
Qed.

(** X14. An item [__getitem__] returns carries the study identifier of the
    stored sample untouched and the converted image of that sample, and
    its one-hot condition and level rows are read back by the decoding of
    [batch_predict] as the condition and the level of the sample. *)
Theorem dataset_item_roundtrip (samples : list (Sample RawImage)) (idx : nat)
  (item : Item Image) :
  dataset_getitem to_chw_tensor samples idx = inr item ->
  exists s,
    nth_error samples idx = Some s
    /\ item_study_id item = sample_study_id s
    /\ item_image item = to_chw_tensor (sample_image s)
    /\ decode_label condition_weights (item_condition item)
       = inr (sample_condition s)
    /\ decode_label level_weights (item_level item) = inr (sample_level s)
    /\ is_one_hot (item_condition item) /\ is_one_hot (item_level item).
Proof.
  intros Hitem.
  destruct (nth_error samples idx) as [s|] eqn:Hs.
  2:{ apply nth_error_None in Hs.
      rewrite (dataset_getitem_out_of_range samples idx Hs) in Hitem.
      discriminate. }
  exists s. split; [reflexivity|].
  destruct (In_CONDITIONS_dec (sample_condition s)) as [Hc|Hc].
  2:{ rewrite (dataset_getitem_bad_condition samples idx s Hs Hc) in Hitem.
      discriminate. }
  destruct (In_LEVELS_dec (sample_level s)) as [Hl|Hl].
  2:{ rewrite (dataset_getitem_bad_level samples idx s Hs Hc Hl) in Hitem.
      discriminate. }
  destruct (dict_find severity_map (sample_severity s)) as [v|] eqn:Hv.
  2:{ assert (Hno : ~ In (sample_severity s) (dict_keys severity_map)).
      { intros Hin. revert Hv. simpl in Hin.
        destruct Hin as [<-|[<-|[<-|[]]]]; discriminate. }
      rewrite (dataset_getitem_bad_severity samples idx s Hs Hc Hl Hno)
        in Hitem.
      discriminate. }
  destruct (In_nth_error _ _ Hc) as [ci Hci].
  destruct (In_nth_error _ _ Hl) as [li Hli].
  rewrite (dataset_getitem_found samples idx s ci li v Hs Hci Hli Hv) in Hitem.
  injection Hitem as <-. cbn.
  split; [reflexivity|]. split; [reflexivity|].
  split; [now apply decode_one_hot_condition|].
  split; [now apply decode_one_hot_level|].
  split.
  - exists ci. split; [|reflexivity].
    now apply (nth_error_lt_5 CONDITIONS ci (sample_condition s)).
  - exists li. split; [|reflexivity].
    now apply (nth_error_lt_5 LEVELS li (sample_level s)).
Qed.

End DatasetProperties.

Lemma dataset_getitem_errors_witness :
  dataset_getitem (fun x : nat => x)
    [mkSample 7%nat "Scoliosis" "L4_L5" "Severe" "study-1"] 0
  = inl (KeyError "Scoliosis")
  /\ dataset_getitem (fun x : nat => x)
       [mkSample 7%nat "Spinal Canal Stenosis" "L4_L5" "Unknown" "study-1"] 0
     = inl (KeyError "Unknown")
  /\ dataset_getitem (fun x : nat => x)
       [mkSample 7%nat "Spinal Canal Stenosis" "L4_L5" "Severe" "study-1"] 1
     = inl IndexError.
Proof.
  split; [|split].
  - destruct (dataset_getitem_errors (fun x : nat => x)
                [mkSample 7%nat "Scoliosis" "L4_L5" "Severe" "study-1"] 0)
      as (_ & Hat).
    apply (Hat (mkSample 7%nat "Scoliosis" "L4_L5" "Severe" "study-1"));
      [reflexivity|]. simpl. intuition discriminate.
  - destruct (dataset_getitem_errors (fun x : nat => x)
                [mkSample 7%nat "Spinal Canal Stenosis" "L4_L5" "Unknown"
                   "study-1"] 0)
      as (_ & Hat).
    apply (Hat (mkSample 7%nat "Spinal Canal Stenosis" "L4_L5" "Unknown"
                  "study-1"));
      [reflexivity | simpl; auto 10 | simpl; auto 10 |].
    simpl. intuition discriminate.
  - destruct (dataset_getitem_errors (fun x : nat => x)
                [mkSample 7%nat "Spinal Canal Stenosis" "L4_L5" "Severe"
                   "study-1"] 1)
      as (Hrange & _).
    apply Hrange. simpl. lia.
Defined.

Lemma dataset_item_roundtrip_witness :
  exists s,
    nth_error [mkSample 7%nat "Spinal Canal Stenosis" "L4_L5" "Severe"
                 "study-1"] 0 = Some s
    /\ "study-1" = sample_study_id s
    /\ 7%nat = sample_image s
    /\ decode_label condition_weights [1; 0; 0; 0; 0] = inr (sample_condition s)
    /\ decode_label level_weights [0; 0; 0; 1; 0] = inr (sample_level s)
    /\ is_one_hot [1; 0; 0; 0; 0] /\ is_one_hot [0; 0; 0; 1; 0].
Proof.
  apply (dataset_item_roundtrip (fun x : nat => x)
           [mkSample 7%nat "Spinal Canal Stenosis" "L4_L5" "Severe" "study-1"]
           0
           (mkItem 7%nat [1; 0; 0; 0; 0] [0; 0; 0; 1; 0]
                   [2.0] [1.0 * 1.5 * 2.0] "study-1")).
  reflexivity.
Defined.

(** ** The training loop *)

Lemma epoch_step_invariant (val_loss : nat -> Q) (k : nat) (s : Training) :
  (k = 0%nat /\ s = training_start) \/ checkpoint_invariant val_loss k s ->
  checkpoint_invariant val_loss (S k) (epoch_step (val_loss k) k s).
Proof.
  intros [[-> ->] | (e & m & Hbest & Hsaved & He & Hval & Hbefore & Hafter & Hcnt)].
  - exists 0%nat, (val_loss 0%nat). cbn.
    repeat split; try reflexivity; try lia.
    intros j Hj. assert (j = 0%nat) as -> by lia. apply Qle_refl.
  - unfold epoch_step. rewrite Hbest. cbn [improves].
    destruct (Qgtb m (val_loss k)) eqn:Hgt.
    + apply Qgtb_true in Hgt.
      exists k, (val_loss k). cbn.
      repeat split; try reflexivity; try lia.
      * intros j Hj. destruct (Nat.lt_ge_cases j e) as [Hje|Hje].
        -- eapply Qlt_trans; [exact Hgt|now apply Hbefore].
        -- eapply Qlt_le_trans; [exact Hgt|apply Hafter; lia].
      * intros j Hj. assert (j = k) as -> by lia. apply Qle_refl.
    + apply Qgtb_false in Hgt.
      exists e, m. cbn.
      repeat split; try assumption; try lia.
      intros j Hj. destruct (Nat.eq_dec j k) as [->|Hne]; [exact Hgt|].
      apply Hafter. lia.
Qed.

Lemma training_loop_spec (val_loss : nat -> Q) (n k : nat) (s : Training)
  (last : nat) :
  (0 < n)%nat ->
  (k = 0%nat /\ s = training_start)
  \/ (checkpoint_invariant val_loss k s
      /\ (patience_counter s < patience)%nat) ->
  let s' := fst (training_loop val_loss (seq k n) s last) in
  let last' := snd (training_loop val_loss (seq k n) s last) in
  checkpoint_invariant val_loss (S last') s'
  /\ (k <= last' < k + n)%nat
  /\ (patience_counter s' <= patience)%nat
  /\ (S last' < k + n -> patience_counter s' = patience)%nat.
Proof.
  revert k s last. induction n as [|n IH]; intros k s last Hn Hinv; [lia|].
  cbn [seq training_loop].
  assert (Hstep : checkpoint_invariant val_loss (S k)
                    (epoch_step (val_loss k) k s)).
  { apply epoch_step_invariant. destruct Hinv as [H|[H _]]; auto. }
  assert (Hcnt : (patience_counter (epoch_step (val_loss k) k s)
                  <= patience)%nat).
  { destruct Hinv as [[_ ->]|[_ Hlt]].
    - cbn. unfold patience. lia.
    - unfold epoch_step. destruct (improves _ _); cbn; unfold patience in *; lia. }
  destruct (patience <=? patience_counter (epoch_step (val_loss k) k s))%nat
    eqn:Hbreak.
  - apply Nat.leb_le in Hbreak. cbn [fst snd].
    split; [exact Hstep|]. split; [lia|]. split; [exact Hcnt|]. lia.
  - apply Nat.leb_gt in Hbreak.
    destruct n as [|n].
    + cbn [seq training_loop fst snd].
      split; [exact Hstep|]. split; [lia|]. split; [exact Hcnt|]. lia.
    + specialize (IH (S k) (epoch_step (val_loss k) k s) k
                     ltac:(lia) (or_intror (conj Hstep Hbreak))).
      cbv zeta in IH. destruct IH as (H1 & H2 & H3 & H4).
      split; [exact H1|]. split; [lia|]. split; [exact H3|].
      intros Hlt. apply H4. lia.
Qed.

(** X15. Whatever validation losses the epochs end with, when the training
    loop stops the saved checkpoint is the first epoch whose validation loss
    is the smallest among the epochs run, [best_val_loss] is that loss,
    [patience_counter] counts the epochs run since, at most 5, and the loop
    stops before epoch 29 only when that count has reached 5. *)
Theorem early_stopping (val_loss : nat -> Q) :
  let s := fst (train val_loss) in
  let last := snd (train val_loss) in
  exists e,
    saved_epoch s = Some e
    /\ best_val_loss s = Some (val_loss e)
    /\ (e <= last < num_epochs)%nat
    /\ (forall j, (j < e)%nat -> val_loss e < val_loss j)
    /\ (forall j, (e <= j <= last)%nat -> val_loss e <= val_loss j)
    /\ patience_counter s = (last - e)%nat
    /\ (last - e <= patience)%nat
    /\ (S last < num_epochs -> last = e + patience)%nat.
Proof.
  intros s last.
  destruct (training_loop_spec val_loss num_epochs 0 training_start 0)
    as ((e & m & Hbest & Hsaved & He & Hval & Hbefore & Hafter & Hcnt)
        & Hrange & Hle & Hstop);
    [unfold num_epochs; lia | now left |].
  fold (train val_loss) in *. fold s in Hbest, Hsaved, Hcnt, Hle, Hstop.
  fold last in He, Hafter, Hcnt, Hrange, Hstop.
  exists e. subst m.
  split; [exact Hsaved|]. split; [exact Hbest|].
  split; [lia|]. split; [exact Hbefore|].
  split; [intros j Hj; apply Hafter; lia|].
  split; [lia|]. split; [lia|].
  intros Hlt. specialize (Hstop ltac:(lia)). lia.
Qed.


(** ** The whole pipeline on one sample, and what a batch can raise *)

Lemma pre_normalization_three (a b c : Q) (condition level : string) :
  exists x y z, pre_normalization [a; b; c] condition level = [x; y; z].
Proof.
  destruct (pre_normalization_cases [a; b; c] condition level) as [-> | ->];
    do 3 eexists; reflexivity.
Qed.

(** X16. For a valid pair and a non-negative 3-vector that sums to 1, the
    per-sample pipeline returns a result whose calibrated probabilities are
    three non-negative numbers that sum to 1, whose confidence stays within
    1e-6 of the interval from 0 to 1, whose severity is 0, 1 or 2 and is
    the first largest calibrated probability, and whose original
    probabilities are the input. *)
Theorem sample_result_guarantees (a b c : Q) (condition level : string) :
  0 <= a -> 0 <= b -> 0 <= c -> a + b + c == 1 ->
  In condition CONDITIONS -> In level LEVELS ->
  exists q conf k,
    sample_result [a; b; c] condition level
    = inr {| probabilities := [q];
             confidence := [conf];
             severity_prediction := [k];
             original_probabilities := [[a; b; c]] |}
    /\ List.length q = 3%nat /\ nonneg q /\ sum_vector q == 1
    /\ (- (1 / 1000000) <= conf <= 1 + 1 / 1000000)%R
    /\ (k < 3)%nat /\ is_first_maximum q k.
Proof.
  intros Ha Hb Hc Hsum Hcond Hlev.
  pose proof (pre_normalization_nonneg a b c condition level
                Ha Hb Hc Hcond Hlev) as Hpre.
  pose proof (distribution_above_eps a b c condition level
                Ha Hb Hc Hsum Hcond Hlev) as Heps.
  pose proof (normalize_row_nonneg _ Hpre) as Hq.
  pose proof (normalize_row_sum _ Hpre Heps) as Hqsum.
  pose proof (apply_valid a b c condition level Hcond Hlev) as Happly.
  destruct (pre_normalization_three a b c condition level)
    as (x & y & z & Hxyz).
  rewrite Hxyz in *.
  set (d := Qmax (l1_norm [x; y; z]) normalize_eps) in *.
  unfold normalize_row in Happly, Hq, Hqsum. fold d in Happly, Hq, Hqsum.
  cbn [map] in Happly, Hq, Hqsum.
  inversion Hq as [|? ? Hq0 Hq']; subst.
  inversion Hq' as [|? ? Hq1 Hq'']; subst.
  inversion Hq'' as [|? ? Hq2 _]; subst.
  assert (Hsum3 : x / d + y / d + z / d == 1)
    by (rewrite <- Hqsum; simpl; ring).
  destruct (distribution_to_R _ _ _ Hq0 Hq1 Hq2 Hsum3)
    as (H0 & H1 & H2 & HsumR).
  destruct (argmax [x / d; y / d; z / d]) as [e|k] eqn:Hk;
    [discriminate|].
  pose proof (argmax_spec _ _ Hk) as Hmax.
  exists [x / d; y / d; z / d]. eexists. exists k.
  split.
  { unfold sample_result. rewrite Happly. cbn [bind].
    unfold get_prediction_confidence.
    cbn [map_rows bind ret row_confidence_with max_row map].
    rewrite Hk. reflexivity. }
  split; [reflexivity|]. split; [exact Hq|]. split; [exact Hqsum|].
  split.
  { match goal with
    | |- (_ <= ?conf <= _)%R =>
        assert (Htight : (0 <= conf <= 1 + ln (1 + log_eps) / ln 3)%R)
          by exact (row_confidence_bounds _ _ _ H0 H1 H2 HsumR)
    end.
    pose proof confidence_excess_small. split; lra. }
  split; [apply Hmax|exact Hmax].
Qed.

Lemma sample_result_guarantees_witness :
  exists q conf k,
    sample_result [0.2; 0.3; 0.5] "Spinal Canal Stenosis" "L4_L5"
    = inr {| probabilities := [q];
             confidence := [conf];
             severity_prediction := [k];
             original_probabilities := [[0.2; 0.3; 0.5]] |}
    /\ List.length q = 3%nat /\ nonneg q /\ sum_vector q == 1
    /\ (- (1 / 1000000) <= conf <= 1 + 1 / 1000000)%R
    /\ (k < 3)%nat /\ is_first_maximum q k.
Proof.
  apply (sample_result_guarantees 0.2 0.3 0.5
           "Spinal Canal Stenosis" "L4_L5"); side_condition.
Defined.

Lemma for_each_error {A S : Type} (P : exn -> Prop)
  (body : S -> A -> result S) (xs : list A) :
  (forall s x e, body s x = inl e -> P e) ->
  forall s e, for_each xs body s = inl e -> P e.
Proof.
  intros Hbody. induction xs as [|x xs IH]; intros s e; simpl;
    [discriminate|].
  destruct (body s x) as [e'|s'] eqn:Hx; cbn [bind].
  - intros [= <-]. eapply Hbody, Hx.
  - apply IH.
Qed.

Lemma list_getitem_error {A : Type} (l : list A) (i : nat) (e : exn) :
  list_getitem l i = inl e -> e = IndexError.
Proof.
  unfold list_getitem. destruct (nth_error l i); [discriminate|].
  now intros [= <-].
Qed.

Lemma list_getitem_In {A : Type} (l : list A) (i : nat) (a : A) :
  list_getitem l i = inr a -> In a l.
Proof.
  unfold list_getitem. destruct (nth_error l i) eqn:Hi; [|discriminate].
  intros [= <-]. eapply nth_error_In, Hi.
Qed.

Lemma predict_sample_error (conditions levels probs : tensor2)
  (acc : list PredictionResult) (i : nat) (e : exn) :
  predict_sample conditions levels probs acc i = inl e -> e = IndexError.
Proof.
  unfold predict_sample.
  destruct (list_getitem conditions i) as [e1|crow] eqn:H1; cbn [bind].
  { intros [= <-]. eapply list_getitem_error, H1. }
  destruct (argmax crow) as [e2|ci] eqn:H2; cbn [bind].
  { intros [= <-]. eapply argmax_error, H2. }
  destruct (list_getitem levels i) as [e3|lrow] eqn:H3; cbn [bind].
  { intros [= <-]. eapply list_getitem_error, H3. }
  destruct (argmax lrow) as [e4|li] eqn:H4; cbn [bind].
  { intros [= <-]. eapply argmax_error, H4. }
  destruct (list_getitem (dict_keys condition_weights) ci)
    as [e5|condition] eqn:H5; cbn [bind].
  { intros [= <-]. eapply list_getitem_error, H5. }
  destruct (list_getitem (dict_keys level_weights) li)
    as [e6|level] eqn:H6; cbn [bind].
  { intros [= <-]. eapply list_getitem_error, H6. }
  destruct (list_getitem probs i) as [e7|p] eqn:H7; cbn [bind].
  { intros [= <-]. eapply list_getitem_error, H7. }
  apply list_getitem_In in H5, H6.
  destruct (apply_condition_level_adjustments [p] condition level)
    as [e8|adjusted] eqn:H8; cbn [bind].
  { intros [= <-]. eapply apply_valid_error; eassumption. }
  destruct (get_prediction_confidence adjusted) as [e9|conf] eqn:H9;
    cbn [bind].
  { intros [= <-]. eapply get_prediction_confidence_error, H9. }
  destruct (map_rows argmax adjusted) as [e10|severity] eqn:H10;
    cbn [bind ret].
  { intros [= <-].
    eapply (map_rows_error (fun e => e = IndexError)); [|exact H10].
    apply argmax_error. }
  discriminate.
Qed.

(** X17. Once the batches are fetched and each holds its image, condition
    and level entries, nothing [batch_predict] does with them raises a
    [KeyError]: the labels it feeds to the adjustment are keys of the
    weight tables, so the log-loss lookup always succeeds and a malformed
    batch can only make it raise [IndexError] (a missing or empty row, an
    argmax beyond the fifth key, fewer than 3 probabilities where the bias
    applies). *)
Theorem batch_predict_errors {Image : Type}
  (image_len : Image -> nat)
  (softmax_classification_model :
     Image -> onehot_arg -> onehot_arg -> tensor2)
  (dataloader : list (Batch Image)) (e : exn) :
  batch_predict image_len softmax_classification_model dataloader = inl e ->
  e = IndexError.
Proof.
  unfold batch_predict.
  apply (for_each_error (fun e => e = IndexError)).
  intros predictions batch e'.
  apply (for_each_error (fun e => e = IndexError)).
  intros acc i e''. apply predict_sample_error.
Qed.

(** Two images but one condition row: the second sample is missing. *)
Lemma batch_predict_errors_witness :
  batch_predict (fun _ : unit => 2%nat) (fun _ _ _ => [[0.2; 0.3; 0.5]])
    [mkBatch tt [[1; 0; 0; 0; 0]] [[1; 0; 0; 0; 0]] ["study-1"]]
  = inl IndexError
  /\ IndexError = IndexError.
Proof.
  split; [reflexivity|].
  apply (batch_predict_errors (fun _ : unit => 2%nat)
           (fun _ _ _ => [[0.2; 0.3; 0.5]])
           [mkBatch tt [[1; 0; 0; 0; 0]] [[1; 0; 0; 0; 0]] ["study-1"]]
           IndexError).
  reflexivity.
Defined.
